(** * Commander-database configuration loader: src/utils/config.js

    A shallow embedding of [parseSheetIdFromUrl], [loadConfig],
    [validateConfig] and [isValidCellAddress], with the properties the
    specification states about them.

    Conventions.
    - A JavaScript string is the list of its UTF-16 code units.
    - Cells of the sheet and properties of a configuration object are
      strings or absent, as in the data model of the specification. A
      value that is a string or [undefined] is an [option jsstring]; a row
      is the list of its cells and [row[i]] is list lookup, which yields
      [None] out of range.
    - The array [config] lives in a store that the procedures thread
      through, so that what they read and what they write can be told
      apart.
    - [throw] and [return] are the two constructors of [result].
    - The logger is a list of entries that is only appended to. *)

From Stdlib Require Import NArith String Ascii Decimal DecimalString Lia.
From stdpp Require Import base list.

Local Open Scope N_scope.

(** ** Strings *)

Definition jsstring := list N.

Definition codeUnit (a : ascii) : N := N_of_ascii a.

(** The code units of an ASCII literal. *)
Definition str (s : string) : jsstring := map codeUnit (list_ascii_of_string s).

(** WhiteSpace and LineTerminator of ECMAScript, the characters
    [String.prototype.trim] strips. *)
Definition whiteSpace : list (N * N) :=
  [ (9, 13); (32, 32); (160, 160); (5760, 5760); (8192, 8202);
    (8232, 8233); (8239, 8239); (8287, 8287); (12288, 12288); (65279, 65279) ].

Definition in_class (cls : list (N * N)) (c : N) : bool :=
  existsb (fun r => (fst r <=? c) && (c <=? snd r)) cls.

Definition isWhiteSpace (c : N) : bool := in_class whiteSpace c.

Fixpoint trimStart (s : jsstring) : jsstring :=
  match s with
  | c :: s' => if isWhiteSpace c then trimStart s' else s
  | [] => []
  end.

Definition trimEnd (s : jsstring) : jsstring := rev (trimStart (rev s)).

Definition trim (s : jsstring) : jsstring := trimEnd (trimStart s).

(** Number and boolean conversion of template literals. *)
Definition numberToString (n : nat) : jsstring :=
  str (NilEmpty.string_of_uint (Nat.to_uint n)).

Definition booleanToString (b : bool) : jsstring :=
  if b then str "true" else str "false".

(** ** Values, errors and results *)

(** A value that is a string or [undefined]. *)
Definition value := option jsstring.

(** ToBoolean: [undefined] and the empty string are falsy. *)
Definition truthy (v : value) : bool :=
  match v with
  | Some (_ :: _) => true
  | _ => false
  end.

(** ToString, as a template literal applies it. *)
Definition toString (v : value) : jsstring :=
  match v with
  | Some s => s
  | None => str "undefined"
  end.

Record Error := mkError { message : jsstring }.

Inductive result (A : Type) : Type :=
| Return (a : A)
| Throw (e : Error).
Arguments Return {A} a.
Arguments Throw {A} e.

(** A method call on [undefined] throws a TypeError (the text is Node's). *)
Definition typeError (method : string) : Error :=
  mkError (str "Cannot read properties of undefined (reading '" ++ str method ++ str "')").

(** ** Regular expressions

    The fragment of the RegExp grammar the two patterns of the file use,
    with the backtracking semantics of the language: quantifiers are
    greedy, a match is looked for at each start index from the left. *)

Inductive regex :=
| Lit (s : jsstring)
| Cls (c : list (N * N))
| Plus (c : list (N * N))
| Star (c : list (N * N))
| Group (r : regex)
| Seq (r1 r2 : regex)
| Bol
| Eol.

Fixpoint stripPrefix (p s : jsstring) : option jsstring :=
  match p, s with
  | [], _ => Some s
  | x :: p', y :: s' => if x =? y then stripPrefix p' s' else None
  | _ :: _, [] => None
  end.

Section Matcher.
Context {R : Type}.
Variable input : jsstring.

(** [c*] in front of continuation [k]: the longest run first, then
    shorter ones. *)
Fixpoint greedy (c : list (N * N)) (s : jsstring) (k : jsstring -> option R) : option R :=
  match s with
  | x :: s' =>
      if in_class c x
      then match greedy c s' k with
           | Some r => Some r
           | None => k s
           end
      else k s
  | [] => k s
  end.

(** [rmatch r s caps k]: match [r] at the front of the rest [s] of the
    input, then continue with [k]; [caps] are the captures so far. *)
Fixpoint rmatch (r : regex) (s : jsstring) (caps : list jsstring)
    (k : jsstring -> list jsstring -> option R) : option R :=
  match r with
  | Lit l =>
      match stripPrefix l s with
      | Some s' => k s' caps
      | None => None
      end
  | Cls c =>
      match s with
      | x :: s' => if in_class c x then k s' caps else None
      | [] => None
      end
  | Plus c =>
      match s with
      | x :: s' => if in_class c x then greedy c s' (fun s'' => k s'' caps) else None
      | [] => None
      end
  | Star c => greedy c s (fun s' => k s' caps)
  | Group r' =>
      rmatch r' s caps
        (fun s' caps' => k s' (caps' ++ [take (length s - length s') s]))
  | Seq r1 r2 => rmatch r1 s caps (fun s' caps' => rmatch r2 s' caps' k)
  | Bol => if Nat.eqb (length s) (length input) then k s caps else None
  | Eol =>
      match s with
      | [] => k s caps
      | _ :: _ => None
      end
  end.
End Matcher.

(** The match at the leftmost start index, as the list of its captures. *)
Fixpoint execFrom (r : regex) (input s : jsstring) : option (list jsstring) :=
  match rmatch input r s [] (fun _ caps => Some caps) with
  | Some m => Some m
  | None =>
      match s with
      | [] => None
      | _ :: s' => execFrom r input s'
      end
  end.

(** [RegExp.prototype.exec] and [String.prototype.match] of a pattern
    without the g flag. *)
Definition exec (r : regex) (s : jsstring) : option (list jsstring) := execFrom r s s.

(** [RegExp.prototype.test]. *)
Definition test (r : regex) (s : jsstring) : bool :=
  match exec r s with
  | Some _ => true
  | None => false
  end.

Definition range (lo hi : ascii) : N * N := (codeUnit lo, codeUnit hi).
Definition single (a : ascii) : N * N := (codeUnit a, codeUnit a).

(** ** parseSheetIdFromUrl *)

(** [[a-zA-Z0-9-_]] *)
Definition idClass : list (N * N) :=
  [ range "a" "z"; range "A" "Z"; range "0" "9"; single "-"; single "_" ]%char.

Definition sheetsSegment : jsstring := str "/spreadsheets/d/".

(** [/\/spreadsheets\/d\/([a-zA-Z0-9-_]+)/] *)
Definition sheetUrlPattern : regex := Seq (Lit sheetsSegment) (Group (Plus idClass)).

Definition invalidSheetsUrl (url : jsstring) : Error :=
  mkError (str "Invalid Google Sheets URL: " ++ url).

Definition parseSheetIdFromUrl (url : value) : result jsstring :=
  match url with
  | None => Throw (typeError "match")
  | Some u =>
      match exec sheetUrlPattern u with
      | None => Throw (invalidSheetsUrl u)
      | Some m =>
          match m !! 0%nat with
          | Some (c :: id) => Return (c :: id)
          | _ => Throw (invalidSheetsUrl u)
          end
      end
  end.

(** ** isValidCellAddress *)

Definition upperClass : list (N * N) := [ range "A" "Z" ]%char.
Definition nonZeroDigitClass : list (N * N) := [ range "1" "9" ]%char.
Definition digitClass : list (N * N) := [ range "0" "9" ]%char.

(** [/^[A-Z]+[1-9][0-9]*$/] *)
Definition cellAddressPattern : regex :=
  Seq Bol (Seq (Plus upperClass) (Seq (Cls nonZeroDigitClass) (Seq (Star digitClass) Eol))).

Definition isValidCellAddress (cellAddress : value) : bool :=
  test cellAddressPattern (toString cellAddress).

(** ** The store, the logger and the monad of the two procedures *)

(** A sheet configuration object; an absent property is [None]. *)
Record SheetConfig := mkSheetConfig {
  name : value;
  sheetId : value;
  sheetName : value;
  webhookUrl : value;
  currentSuppliesCell : value;
  dailyConsumptionCell : value
}.

(** Property access [sheetConfig[field]]. *)
Definition property (o : SheetConfig) (field : string) : value :=
  if String.eqb field "name" then name o
  else if String.eqb field "sheetId" then sheetId o
  else if String.eqb field "sheetName" then sheetName o
  else if String.eqb field "webhookUrl" then webhookUrl o
  else if String.eqb field "currentSuppliesCell" then currentSuppliesCell o
  else if String.eqb field "dailyConsumptionCell" then dailyConsumptionCell o
  else None.

Inductive level := DEBUG | INFO | WARN | ERROR.

(** One call of the logger: its level, its text and, for
    [logger.error(text, error)], the error passed along. *)
Record LogEntry := mkLog { lvl : level; text : jsstring; attached : option Error }.

(** The mutable state: the elements of the array [config] and what has
    been logged. *)
Record store := mkStore { elements : list SheetConfig; logged : list LogEntry }.

Definition M (A : Type) : Type := store -> result A * store.

Definition ret {A} (a : A) : M A := fun st => (Return a, st).

Definition bind {A B} (m : M A) (f : A -> M B) : M B :=
  fun st =>
    match m st with
    | (Return a, st') => f a st'
    | (Throw e, st') => (Throw e, st')
    end.

Definition throw {A} (e : Error) : M A := fun st => (Throw e, st).

(** [try { m } catch (error) { handler }] *)
Definition tryCatch {A} (m : M A) (handler : Error -> M A) : M A :=
  fun st =>
    match m st with
    | (Return a, st') => (Return a, st')
    | (Throw e, st') => handler e st'
    end.

Definition lift {A} (r : result A) : M A := fun st => (r, st).

#[global] Instance M_ret : MRet M := @ret.
#[global] Instance M_bind : MBind M := fun A B f m => bind m f.

Definition logger (l : level) (t : jsstring) (e : option Error) : M unit :=
  fun st => (Return tt, mkStore (elements st) (logged st ++ [mkLog l t e])).

(** [config.push(c)] *)
Definition push (c : SheetConfig) : M unit :=
  fun st => (Return tt, mkStore (elements st ++ [c]) (logged st)).

(** [config.length] *)
Definition arrayLength : M nat := fun st => (Return (length (elements st)), st).

(** [config[index][field]]; [forEach] only visits indices below the
    length, so the element is there. *)
Definition readProperty (index : nat) (field : string) : M value :=
  fun st =>
    match elements st !! index with
    | Some o => (Return (property o field), st)
    | None => (Throw (typeError field), st)
    end.

(** [const config = []] *)
Definition newArray : M unit := fun st => (Return tt, mkStore [] (logged st)).

(** The array itself, as [return config] hands it over. *)
Definition readArray : M (list SheetConfig) := fun st => (Return (elements st), st).

(** [value.trim()] *)
Definition callTrim (v : value) : result jsstring :=
  match v with
  | Some s => Return (trim s)
  | None => Throw (typeError "trim")
  end.

(** A row of the sheet: its cells, trailing empty ones left out. *)
Definition Row := list jsstring.

(** ** validateConfig *)

(** What the parameter [config] is bound to: the array of the store, or a
    value that is no array. *)
Inductive argument := TheArray | NotAnArray.

Definition requiredFields : list string :=
  [ "name"; "sheetId"; "webhookUrl"; "currentSuppliesCell"; "dailyConsumptionCell" ]%string.

Definition notAnArrayError : Error :=
  mkError (str "Configuration must be an array of sheet configurations").

Definition emptyArrayError : Error :=
  mkError (str "Configuration must contain at least one sheet configuration").

Definition missingFieldError (index : nat) (field : string) : Error :=
  mkError (str "Sheet configuration " ++ numberToString index
           ++ str " is missing required field: " ++ str field).

Definition invalidWebhookError (index : nat) (v : value) : Error :=
  mkError (str "Sheet configuration " ++ numberToString index
           ++ str " has invalid webhook URL: " ++ toString v).

Definition invalidCellError (index : nat) (field : string) (v : value) : Error :=
  mkError (str "Sheet configuration " ++ numberToString index
           ++ str " has invalid " ++ str field ++ str ": " ++ toString v).

Section Platform.
(** [new URL(s)] of the platform succeeds exactly on the strings the
    WHATWG URL parser accepts; the parser is no code of this file. *)
Variable urlParses : jsstring -> bool.

Definition newURL (v : value) : result unit :=
  if urlParses (toString v) then Return tt else Throw (mkError (str "Invalid URL")).

(** [for (const field of requiredFields) ...] *)
Fixpoint checkRequired (index : nat) (fields : list string) : M unit :=
  match fields with
  | [] => ret tt
  | field :: fields' =>
      v ← readProperty index field;
      if negb (truthy v)
      then throw (missingFieldError index field)
      else checkRequired index fields'
  end.

(** The callback of [config.forEach]. *)
Definition validateSheetConfig (index : nat) : M unit :=
  checkRequired index requiredFields;;
  tryCatch
    (w ← readProperty index "webhookUrl"; lift (newURL w))
    (fun _ => w ← readProperty index "webhookUrl";
              throw (invalidWebhookError index w));;
  c ← readProperty index "currentSuppliesCell";
  (if negb (isValidCellAddress c)
   then c' ← readProperty index "currentSuppliesCell";
        throw (invalidCellError index "currentSuppliesCell" c')
   else ret tt);;
  d ← readProperty index "dailyConsumptionCell";
  (if negb (isValidCellAddress d)
   then d' ← readProperty index "dailyConsumptionCell";
        throw (invalidCellError index "dailyConsumptionCell" d')
   else ret tt).

(** [config.forEach(callback)]: the callback at [index], [index + 1],
    ... for [n] elements. *)
Fixpoint forEachFrom (callback : nat -> M unit) (index n : nat) : M unit :=
  match n with
  | O => ret tt
  | S n' => callback index;; forEachFrom callback (S index) n'
  end.

Definition forEach (callback : nat -> M unit) : M unit :=
  len ← arrayLength; forEachFrom callback 0 len.

Definition validateConfig (config : argument) : M unit :=
  match config with
  | NotAnArray => throw notAnArrayError
  | TheArray =>
      len ← arrayLength;
      if Nat.eqb len 0 then throw emptyArrayError
      else
        forEach validateSheetConfig;;
        len' ← arrayLength;
        logger INFO (str "Configuration validation passed for "
                     ++ numberToString len' ++ str " sheets") None
  end.

(** ** loadConfig *)

Definition envMissingError : Error :=
  mkError (str "DATABASE_SHEET_ID environment variable is required").

Definition noCommanderDataError : Error :=
  mkError (str "No commander data found in Commander Database sheet").

Definition noValidConfigurationsError : Error :=
  mkError (str "No valid commander configurations found in Commander Database sheet").

Definition loadingFailed (error : Error) : Error :=
  mkError (str "Configuration loading failed: " ++ message error).

(** The body of the [for] loop, lines 61 to 98. *)
Definition scanRow (row : Row) (i : nat) : M unit :=
  let rowNumber := (i + 3)%nat in
  let name := row !! 0%nat in
  let sheetUrl := row !! 2%nat in
  let webhookUrl := row !! 12%nat in
  if negb (truthy name) || negb (truthy sheetUrl) || negb (truthy webhookUrl)
  then
    logger DEBUG
      (str "Skipping row " ++ numberToString rowNumber
       ++ str ": missing required fields (name: " ++ booleanToString (truthy name)
       ++ str ", sheetUrl: " ++ booleanToString (truthy sheetUrl)
       ++ str ", webhookUrl: " ++ booleanToString (truthy webhookUrl) ++ str ")") None
  else
    tryCatch
      (sheetId ← lift (parseSheetIdFromUrl sheetUrl);
       trimmedName ← lift (callTrim name);
       trimmedWebhook ← lift (callTrim webhookUrl);
       push {| name := Some trimmedName;
               sheetId := Some sheetId;
               sheetName := Some (str "Sheet1");
               webhookUrl := Some trimmedWebhook;
               currentSuppliesCell := Some (str "C9");
               dailyConsumptionCell := Some (str "C11") |};;
       logger DEBUG (str "Added configuration for: " ++ toString name) None)
      (fun error =>
         logger WARN
           (str "Skipping row " ++ numberToString rowNumber ++ str " ("
            ++ toString name ++ str "): " ++ message error) None).

(** [for (let i = ...; i < rows.length; i++)], from index [i] on. *)
Fixpoint scanRows (rows : list Row) (i : nat) : M unit :=
  match rows with
  | [] => ret tt
  | row :: rows' => scanRow row i;; scanRows rows' (S i)
  end.

(** Lines 53 to 105: the two guards and the loop between them, which
    fill the array [config]. *)
Definition discover (rows : option (list Row)) : M unit :=
  match rows with
  | None | Some [] => throw noCommanderDataError
  | Some rs =>
      newArray;;
      scanRows rs 0;;
      len ← arrayLength;
      if Nat.eqb len 0 then throw noValidConfigurationsError else ret tt
  end.

(** [process.env.DATABASE_SHEET_ID], and the sheets service: its
    construction and [initialize()], and [getRange], each awaited to a
    value or to a rejection. *)
Variable DATABASE_SHEET_ID : value.
Variable initialize : result unit.
Variable getRange : jsstring -> jsstring -> jsstring -> result (option (list Row)).

(** The [try] block of [loadConfig]. *)
Definition loadConfigTry : M (list SheetConfig) :=
  let databaseSheetId := DATABASE_SHEET_ID in
  (if negb (truthy databaseSheetId) then throw envMissingError else ret tt);;
  logger INFO (str "Loading configuration from database sheet: "
               ++ toString databaseSheetId) None;;
  lift initialize;;
  rows ← lift (getRange (toString databaseSheetId) (str "A3:M") (str "Commander Database"));
  discover rows;;
  validateConfig TheArray;;
  len ← arrayLength;
  logger INFO (str "Successfully loaded configuration for "
               ++ numberToString len ++ str " commanders") None;;
  readArray.

Definition loadConfig : M (list SheetConfig) :=
  tryCatch loadConfigTry
    (fun error =>
       logger ERROR (str "Failed to load configuration:") (Some error);;
       throw (loadingFailed error)).
End Platform.

(** A fresh run: [const config = []] and an empty log. *)
Definition emptyStore : store := mkStore [] [].


(** ** Reference notions the statements use *)

Definition lowercaseLetter (c : N) : Prop := codeUnit "a" <= c <= codeUnit "z".
Definition uppercaseLetter (c : N) : Prop := codeUnit "A" <= c <= codeUnit "Z".
Definition decimalDigit (c : N) : Prop := codeUnit "0" <= c <= codeUnit "9".
Definition nonZeroDigit (c : N) : Prop := codeUnit "1" <= c <= codeUnit "9".

(** A character of [[A-Za-z0-9-_]]. *)
Definition idChar (c : N) : Prop :=
  uppercaseLetter c \/ lowercaseLetter c \/ decimalDigit c
  \/ c = codeUnit "-" \/ c = codeUnit "_".

(** [url] holds [/spreadsheets/d/] followed at once by a character of the
    class, [pre] being what stands before the segment. *)
Definition patternAt (url pre : jsstring) : Prop :=
  exists c rest, url = pre ++ sheetsSegment ++ c :: rest /\ idChar c.

Definition containsPattern (url : jsstring) : Prop := exists pre, patternAt url pre.

(** The longest prefix of characters of a class, and what follows it. *)
Fixpoint takeRun (c : list (N * N)) (s : jsstring) : jsstring :=
  match s with
  | x :: s' => if in_class c x then x :: takeRun c s' else []
  | [] => []
  end.

Fixpoint dropRun (c : list (N * N)) (s : jsstring) : jsstring :=
  match s with
  | x :: s' => if in_class c x then dropRun c s' else s
  | [] => []
  end.

(** What the pattern amounts to, read off the front of the string. *)
Definition cellShape (s : jsstring) : bool :=
  match s with
  | x :: s' =>
      in_class upperClass x
      && match dropRun upperClass s' with
         | y :: t =>
             in_class nonZeroDigitClass y
             && match dropRun digitClass t with [] => true | _ :: _ => false end
         | [] => false
         end
  | [] => false
  end.

(** The capture of a match that starts at the front of [s]. *)
Definition idAt (s : jsstring) : option jsstring :=
  match stripPrefix sheetsSegment s with
  | Some (x :: s') => if in_class idClass x then Some (x :: takeRun idClass s') else None
  | _ => None
  end.

(** The capture of the leftmost match. *)
Fixpoint firstId (s : jsstring) : option jsstring :=
  match idAt s with
  | Some id => Some id
  | None =>
      match s with
      | [] => None
      | _ :: s' => firstId s'
      end
  end.

(** *** Rows and the records they yield *)

(** A cell that is absent or the empty string. *)
Definition missing (v : value) : Prop := v = None \/ v = Some [].

(** A non-empty string of white space only. *)
Definition whitespaceOnly (s : jsstring) : Prop :=
  s <> [] /\ Forall (fun c => isWhiteSpace c = true) s.

(** The identifier can be extracted from the cell. *)
Definition extractable (v : value) : Prop :=
  exists id, parseSheetIdFromUrl v = Return id.

(** A non-empty name, a URL that yields an identifier, a non-empty
    endpoint. *)
Definition completeRow (row : list jsstring) : Prop :=
  truthy (row !! 0%nat) = true /\ extractable (row !! 2%nat)
  /\ truthy (row !! 12%nat) = true.

(** All three cells are there, and the identifier can be extracted. *)
Definition fullyValid (row : Row) : Prop :=
  truthy (row !! 0%nat) = true /\ truthy (row !! 2%nat) = true
  /\ truthy (row !! 12%nat) = true
  /\ exists id, parseSheetIdFromUrl (row !! 2%nat) = Return id.

#[global] Instance extractable_dec v : Decision (extractable v).
Proof.
  unfold extractable. destruct (parseSheetIdFromUrl v) as [id|e].
  - left. exists id. reflexivity.
  - right. intros [id H]. discriminate H.
Defined.

#[global] Instance fullyValid_dec row : Decision (fullyValid row).
Proof. unfold fullyValid. apply _. Defined.

Definition fullyValidb (row : Row) : bool :=
  truthy (row !! 0%nat) && truthy (row !! 2%nat) && truthy (row !! 12%nat)
  && match parseSheetIdFromUrl (row !! 2%nat) with Return _ => true | Throw _ => false end.

(** [c] is the record the specification assigns to [row]. *)
Definition recordOf (row : Row) (c : SheetConfig) : Prop :=
  exists n u w id,
    row !! 0%nat = Some n /\ row !! 2%nat = Some u /\ row !! 12%nat = Some w
    /\ parseSheetIdFromUrl (Some u) = Return id
    /\ c = {| name := Some (trim n);
              sheetId := Some id;
              sheetName := Some (str "Sheet1");
              webhookUrl := Some (trim w);
              currentSuppliesCell := Some (str "C9");
              dailyConsumptionCell := Some (str "C11") |}.

(** What one row adds to [config]: one record or none. *)
Definition rowRecords (row : Row) : list SheetConfig :=
  if fullyValidb row
  then match parseSheetIdFromUrl (row !! 2%nat) with
       | Return id =>
           [ {| name := Some (trim (toString (row !! 0%nat)));
                sheetId := Some id;
                sheetName := Some (str "Sheet1");
                webhookUrl := Some (trim (toString (row !! 12%nat)));
                currentSuppliesCell := Some (str "C9");
                dailyConsumptionCell := Some (str "C11") |} ]
       | Throw _ => []
       end
  else [].

(** *** The checks of the validator, in the words of the specification *)

Inductive violation :=
| MissingField (field : string)
| InvalidEndpoint
| InvalidCellAddress (field : string).

Section Checks.
Variable urlParses : jsstring -> bool.

(** The first check a record fails: the five required fields in their
    order, then the endpoint, then the two cell addresses. *)
Definition firstViolation (o : SheetConfig) : option violation :=
  if negb (truthy (name o)) then Some (MissingField "name")
  else if negb (truthy (sheetId o)) then Some (MissingField "sheetId")
  else if negb (truthy (webhookUrl o)) then Some (MissingField "webhookUrl")
  else if negb (truthy (currentSuppliesCell o)) then Some (MissingField "currentSuppliesCell")
  else if negb (truthy (dailyConsumptionCell o)) then Some (MissingField "dailyConsumptionCell")
  else if negb (urlParses (toString (webhookUrl o))) then Some InvalidEndpoint
  else if negb (isValidCellAddress (currentSuppliesCell o))
       then Some (InvalidCellAddress "currentSuppliesCell")
  else if negb (isValidCellAddress (dailyConsumptionCell o))
       then Some (InvalidCellAddress "dailyConsumptionCell")
  else None.

(** The error that reports violation [v] of the record [o] at [index]. *)
Definition violationError (index : nat) (o : SheetConfig) (v : violation) : Error :=
  match v with
  | MissingField field => missingFieldError index field
  | InvalidEndpoint => invalidWebhookError index (webhookUrl o)
  | InvalidCellAddress field => invalidCellError index field (property o field)
  end.

(** The error of the first record, from [index] on, that fails a check. *)
Fixpoint firstFailure (index : nat) (l : list SheetConfig) : option Error :=
  match l with
  | [] => None
  | o :: l' =>
      match firstViolation o with
      | Some v => Some (violationError index o v)
      | None => firstFailure (S index) l'
      end
  end.

(** What [validateConfig] answers on an array with these elements. *)
Definition validation (l : list SheetConfig) : result unit :=
  match l with
  | [] => Throw emptyArrayError
  | _ :: _ =>
      match firstFailure 0 l with
      | Some e => Throw e
      | None => Return tt
      end
  end.
End Checks.

(** *** What a run of loadConfig ends with *)

Section Outcome.
Variable urlParses : jsstring -> bool.
Variable DATABASE_SHEET_ID : value.
Variable initialize : result unit.
Variable getRange : jsstring -> jsstring -> jsstring -> result (option (list Row)).

(** The array the [try] block returns, or the error it throws. *)
Definition tryOutcome : result (list SheetConfig) :=
  if negb (truthy DATABASE_SHEET_ID) then Throw envMissingError
  else
    match initialize with
    | Throw e => Throw e
    | Return _ =>
        match getRange (toString DATABASE_SHEET_ID) (str "A3:M")
                (str "Commander Database") with
        | Throw e => Throw e
        | Return None => Throw noCommanderDataError
        | Return (Some []) => Throw noCommanderDataError
        | Return (Some (row :: rows)) =>
            match flat_map rowRecords (row :: rows) with
            | [] => Throw noValidConfigurationsError
            | c :: config =>
                match validation urlParses (c :: config) with
                | Throw e => Throw e
                | Return _ => Return (c :: config)
                end
            end
        end
    end.
End Outcome.

(** *** Notions of the further properties *)

(** Two cells the scan cannot tell apart: the same cell, or two cells
    that are both absent or empty. *)
Definition sameCell (v v' : value) : Prop :=
  v = v' \/ (truthy v = false /\ truthy v' = false).

(** Two rows that agree, in this sense, on the cells 0, 2 and 12. *)
Definition sameKeyCells (row row' : Row) : Prop :=
  sameCell (row !! 0%nat) (row' !! 0%nat)
  /\ sameCell (row !! 2%nat) (row' !! 2%nat)
  /\ sameCell (row !! 12%nat) (row' !! 12%nat).

(** Somewhere in [s] the character [a] stands right before [b]. *)
Fixpoint followedBy (a b : N) (s : jsstring) : bool :=
  match s with
  | x :: s' =>
      match s' with
      | y :: _ => ((x =? a) && (y =? b)) || followedBy a b s'
      | [] => false
      end
  | [] => false
  end.

(** No white space at either end. *)
Definition noOuterWhiteSpace (s : jsstring) : Prop :=
  forall c, head s = Some c \/ last s = Some c -> isWhiteSpace c = false.

(** [t] is [s] without the white space at its two ends. *)
Definition trimmedOf (s t : jsstring) : Prop :=
  exists pre post,
    s = pre ++ t ++ post
    /\ Forall (fun c => isWhiteSpace c = true) pre
    /\ Forall (fun c => isWhiteSpace c = true) post
    /\ noOuterWhiteSpace t.

(** Two records that differ at most in their sheetName. *)
Definition sameButSheetName (o o' : SheetConfig) : Prop :=
  name o = name o' /\ sheetId o = sheetId o' /\ webhookUrl o = webhookUrl o'
  /\ currentSuppliesCell o = currentSuppliesCell o'
  /\ dailyConsumptionCell o = dailyConsumptionCell o'.

(** A row whose record passes the validator: name and endpoint are more
    than white space, and the trimmed endpoint parses as a URL. *)
Definition keptRowPasses (urlParses : jsstring -> bool) (row : Row) : Prop :=
  exists n w,
    row !! 0%nat = Some n /\ trim n <> [] /\ row !! 12%nat = Some w
    /\ trim w <> [] /\ urlParses (trim w) = true.

(** The two lines [loadConfig] logs last when it returns [n] records. *)
Definition successLines (n : nat) : list LogEntry :=
  [ mkLog INFO (str "Configuration validation passed for "
                ++ numberToString n ++ str " sheets") None;
    mkLog INFO (str "Successfully loaded configuration for "
                ++ numberToString n ++ str " commanders") None ].

(** *** Sample data *)

(** A stand-in for the URL parser of the platform, for the examples. *)
Definition demoUrlOk (s : jsstring) : bool :=
  match stripPrefix (str "https://") s with Some (_ :: _) => true | _ => false end.

Definition saraianRow : Row :=
  [ str "Saraian 1st Army"; []; str "https://docs.google.com/spreadsheets/d/1AbCdEfG/edit";
    []; []; []; []; []; []; []; []; []; str "https://discord.com/api/webhooks/123/abc" ].

Definition kelticRow : Row :=
  [ str "Keltic Raiders"; []; str "https://docs.google.com/spreadsheets/d/1ZyXwVu";
    []; []; []; []; []; []; []; []; []; str "https://discord.com/api/webhooks/456/def" ].

Definition demoRows : list Row := [ saraianRow; [ []; []; [] ]; kelticRow ].

Definition demoConfig : list SheetConfig :=
  [ {| name := Some (str "Saraian 1st Army");
       sheetId := Some (str "1AbCdEfG");
       sheetName := Some (str "Sheet1");
       webhookUrl := Some (str "https://discord.com/api/webhooks/123/abc");
       currentSuppliesCell := Some (str "C9");
       dailyConsumptionCell := Some (str "C11") |};
    {| name := Some (str "Keltic Raiders");
       sheetId := Some (str "1ZyXwVu");
       sheetName := Some (str "Sheet1");
       webhookUrl := Some (str "https://discord.com/api/webhooks/456/def");
       currentSuppliesCell := Some (str "C9");
       dailyConsumptionCell := Some (str "C11") |} ].

(** A record that lacks its sheetId, and has more wrong with it. *)
Definition brokenRecord : SheetConfig :=
  {| name := Some (str "Northern Legion");
     sheetId := None;
     sheetName := Some (str "Sheet1");
     webhookUrl := Some (str "not a url");
     currentSuppliesCell := Some (str "c9");
     dailyConsumptionCell := Some (str "C11") |}.

(** A row whose name cell is one space, the other two cells being fine. *)
Definition blankNameRow : Row :=
  [ str " "; []; str "https://docs.google.com/spreadsheets/d/1AbCdEfG/edit";
    []; []; []; []; []; []; []; []; []; str "https://discord.com/api/webhooks/123/abc" ].

(** A row with its three cells whose endpoint is no URL. *)
Definition badEndpointRow : Row :=
  [ str "Northern Legion"; []; str "https://docs.google.com/spreadsheets/d/1DeF";
    []; []; []; []; []; []; []; []; []; str "not a url" ].

(** A row with white space around its name and its endpoint. *)
Definition paddedRow : Row :=
  [ str "  Keltic Raiders "; []; str "https://docs.google.com/spreadsheets/d/1ZyXwVu";
    []; []; []; []; []; []; []; []; [];
    str " https://discord.com/api/webhooks/456/def  " ].

(** A row that stops after the URL cell. *)
Definition shortRow : Row :=
  [ str "Keltic Raiders"; []; str "https://docs.google.com/spreadsheets/d/1ZyXwVu" ].

(** A row whose URL cell holds no sheet identifier. *)
Definition malformedRow : Row :=
  [ str "Northern Legion"; []; str "https://docs.google.com/document/d/1DeF";
    []; []; []; []; []; []; []; []; []; str "https://discord.com/api/webhooks/333/ccc" ].

(** * Properties *)

(** ** Character classes *)

Lemma idClass_spec c : in_class idClass c = true <-> idChar c.
Proof.
  unfold idChar, uppercaseLetter, lowercaseLetter, decimalDigit.
  cbv [in_class idClass existsb range single codeUnit fst snd].
  change (N_of_ascii "a") with 97; change (N_of_ascii "z") with 122.
  change (N_of_ascii "A") with 65; change (N_of_ascii "Z") with 90.
  change (N_of_ascii "0") with 48; change (N_of_ascii "9") with 57.
  change (N_of_ascii "-") with 45; change (N_of_ascii "_") with 95.
  rewrite !orb_true_iff, !andb_true_iff, !N.leb_le. lia.
Qed.

Lemma upperClass_spec c : in_class upperClass c = true <-> uppercaseLetter c.
Proof.
  unfold uppercaseLetter.
  cbv [in_class upperClass existsb range codeUnit fst snd].
  change (N_of_ascii "A") with 65; change (N_of_ascii "Z") with 90.
  rewrite !orb_true_iff, !andb_true_iff, !N.leb_le. lia.
Qed.

Lemma digitClass_spec c : in_class digitClass c = true <-> decimalDigit c.
Proof.
  unfold decimalDigit.
  cbv [in_class digitClass existsb range codeUnit fst snd].
  change (N_of_ascii "0") with 48; change (N_of_ascii "9") with 57.
  rewrite !orb_true_iff, !andb_true_iff, !N.leb_le. lia.
Qed.

Lemma nonZeroDigitClass_spec c : in_class nonZeroDigitClass c = true <-> nonZeroDigit c.
Proof.
  unfold nonZeroDigit.
  cbv [in_class nonZeroDigitClass existsb range codeUnit fst snd].
  change (N_of_ascii "1") with 49; change (N_of_ascii "9") with 57.
  rewrite !orb_true_iff, !andb_true_iff, !N.leb_le. lia.
Qed.

Lemma upper_not_nonZeroDigit c :
  in_class upperClass c = true -> in_class nonZeroDigitClass c = false.
Proof.
  intros H. apply upperClass_spec in H.
  destruct (in_class nonZeroDigitClass c) eqn:E; [|reflexivity].
  apply nonZeroDigitClass_spec in E.
  unfold uppercaseLetter, nonZeroDigit, codeUnit in *. cbn in *. lia.
Qed.

Arguments in_class : simpl never.

(** ** Runs *)

Lemma takeRun_dropRun c s : takeRun c s ++ dropRun c s = s.
Proof.
  induction s as [|x s IH]; simpl; [reflexivity|].
  destruct (in_class c x); simpl; [now rewrite IH | reflexivity].
Qed.

Lemma takeRun_Forall c s : Forall (fun x => in_class c x = true) (takeRun c s).
Proof.
  induction s as [|x s IH]; simpl; [constructor|].
  destruct (in_class c x) eqn:E; constructor; assumption.
Qed.

Lemma dropRun_head c s x s' : dropRun c s = x :: s' -> in_class c x = false.
Proof.
  induction s as [|y s IH]; simpl; [discriminate|].
  destruct (in_class c y) eqn:E; [exact IH|].
  intros [= <- <-]. exact E.
Qed.

Lemma takeRun_app c l r :
  Forall (fun x => in_class c x = true) l ->
  match r with [] => True | x :: _ => in_class c x = false end ->
  takeRun c (l ++ r) = l.
Proof.
  intros Hl Hr. induction Hl as [|x l Hx _ IH]; simpl.
  - destruct r as [|x r]; simpl; [reflexivity | now rewrite Hr].
  - now rewrite Hx, IH.
Qed.

Lemma dropRun_app c l r :
  Forall (fun x => in_class c x = true) l -> dropRun c (l ++ r) = dropRun c r.
Proof.
  intros Hl. induction Hl as [|x l Hx _ IH]; simpl; [reflexivity|].
  now rewrite Hx.
Qed.

Lemma dropRun_length c s : (length (dropRun c s) <= length s)%nat.
Proof.
  induction s as [|x s IH]; simpl; [lia|].
  destruct (in_class c x); simpl; lia.
Qed.

(** ** The matcher *)

(** A greedy quantifier settles on the longest run as soon as the
    continuation accepts there, or cannot accept after a shorter run. *)
Lemma greedy_longest {R} c s (k : jsstring -> option R) :
  k (dropRun c s) <> None \/ (forall x s', in_class c x = true -> k (x :: s') = None) ->
  greedy c s k = k (dropRun c s).
Proof.
  intros Hk. induction s as [|x s IH]; simpl; [reflexivity|].
  destruct (in_class c x) eqn:E; [|reflexivity].
  simpl in Hk. rewrite E in Hk. rewrite IH by exact Hk.
  destruct (k (dropRun c s)) eqn:Ek; [reflexivity|].
  destruct Hk as [Hk|Hk]; [congruence|].
  now apply Hk.
Qed.

Lemma stripPrefix_spec p s s' : stripPrefix p s = Some s' <-> s = p ++ s'.
Proof.
  revert s. induction p as [|x p IH]; intros s; simpl.
  - split; [intros [= ->]; reflexivity | intros ->; reflexivity].
  - destruct s as [|y s]; [split; discriminate|].
    destruct (N.eqb_spec x y) as [->|Hne].
    + rewrite IH. split; [intros ->; reflexivity | intros [= ->]; reflexivity].
    + split; [discriminate | intros [= -> _]; congruence].
Qed.

(** ** isValidCellAddress *)

Lemma cellAddress_rmatch input s :
  rmatch input cellAddressPattern s [] (fun _ caps => Some caps)
  = if Nat.eqb (length s) (length input) && cellShape s then Some [] else None.
Proof.
  unfold cellAddressPattern. cbn [rmatch].
  destruct (Nat.eqb (length s) (length input)); [|reflexivity].
  destruct s as [|x s]; [reflexivity|]. cbn [cellShape andb].
  destruct (in_class upperClass x); [|reflexivity]. simpl.
  rewrite greedy_longest.
  2:{ right. intros y t Hy. now rewrite (upper_not_nonZeroDigit y Hy). }
  destruct (dropRun upperClass s) as [|y t]; [reflexivity|].
  destruct (in_class nonZeroDigitClass y); [|reflexivity]. simpl.
  rewrite greedy_longest by (right; reflexivity).
  now destruct (dropRun digitClass t).
Qed.

Lemma cellAddress_later_start input s :
  (length s < length input)%nat -> execFrom cellAddressPattern input s = None.
Proof.
  induction s as [|x s IH]; intros Hlt.
  - unfold execFrom. rewrite cellAddress_rmatch.
    destruct (Nat.eqb_spec (length (@nil N)) (length input)) as [E|_]; [lia|reflexivity].
  - cbn [execFrom]. rewrite cellAddress_rmatch.
    destruct (Nat.eqb_spec (length (x :: s)) (length input)) as [E|_]; [lia|].
    simpl. apply IH. simpl in Hlt. lia.
Qed.

Lemma isValidCellAddress_shape s : isValidCellAddress (Some s) = cellShape s.
Proof.
  unfold isValidCellAddress, test, exec. simpl toString.
  destruct s as [|x s].
  - reflexivity.
  - cbn [execFrom]. rewrite cellAddress_rmatch, Nat.eqb_refl.
    cbn [andb]. destruct (cellShape (x :: s)); [reflexivity|].
    rewrite cellAddress_later_start by (simpl; lia). reflexivity.
Qed.

Lemma Forall_class (P : N -> Prop) c l :
  (forall x, in_class c x = true <-> P x) ->
  Forall (fun x => in_class c x = true) l <-> Forall P l.
Proof.
  intros H. split; intros HF; induction HF; constructor; try assumption; now apply H.
Qed.

Lemma cellShape_spec s :
  cellShape s = true <->
  exists letters d digits,
    s = letters ++ d :: digits /\ letters <> [] /\ Forall uppercaseLetter letters
    /\ nonZeroDigit d /\ Forall decimalDigit digits.
Proof.
  split.
  - destruct s as [|x s]; [discriminate|]. simpl.
    destruct (in_class upperClass x) eqn:Hx; [|discriminate]. simpl.
    destruct (dropRun upperClass s) as [|y t] eqn:Hd; [discriminate|].
    destruct (in_class nonZeroDigitClass y) eqn:Hy; [|discriminate]. simpl.
    destruct (dropRun digitClass t) eqn:Ht; [|discriminate]. intros _.
    exists (x :: takeRun upperClass s), y, t.
    split; [|split; [|split; [|split]]].
    + simpl. rewrite <- Hd, takeRun_dropRun. reflexivity.
    + discriminate.
    + apply (Forall_class _ upperClass); [apply upperClass_spec|].
      constructor; [exact Hx | apply takeRun_Forall].
    + now apply nonZeroDigitClass_spec.
    + apply (Forall_class _ digitClass); [apply digitClass_spec|].
      rewrite <- (takeRun_dropRun digitClass t), Ht, app_nil_r. apply takeRun_Forall.
  - intros (letters & d & digits & -> & Hne & Hl & Hd & Hds).
    apply (Forall_class _ upperClass) in Hl; [|apply upperClass_spec].
    apply (Forall_class _ digitClass) in Hds; [|apply digitClass_spec].
    apply nonZeroDigitClass_spec in Hd.
    destruct letters as [|x letters]; [congruence|].
    inversion Hl as [|? ? Hx Hl']; subst. simpl. rewrite Hx. simpl.
    rewrite dropRun_app by exact Hl'. simpl.
    assert (Hu : in_class upperClass d = false).
    { destruct (in_class upperClass d) eqn:E; [|reflexivity].
      apply upper_not_nonZeroDigit in E. congruence. }
    rewrite Hu, Hd. simpl.
    rewrite <- (app_nil_r digits), dropRun_app by exact Hds. reflexivity.
Qed.

(** C7. The cell-address predicate accepts a string exactly when it is one
    or more uppercase letters, then one non-zero decimal digit, then zero
    or more decimal digits. It accepts A1, C9 and AA10 and rejects a1, A0,
    A01, 1A and the empty string; it yields a boolean on every string. *)
Theorem isValidCellAddress_grammar :
  (forall s : jsstring,
     isValidCellAddress (Some s) = true <->
     exists letters d digits,
       s = letters ++ d :: digits /\ letters <> [] /\ Forall uppercaseLetter letters
       /\ nonZeroDigit d /\ Forall decimalDigit digits)
  /\ (forall s : jsstring,
        isValidCellAddress (Some s) = true \/ isValidCellAddress (Some s) = false)
  /\ isValidCellAddress (Some (str "A1")) = true
  /\ isValidCellAddress (Some (str "C9")) = true
  /\ isValidCellAddress (Some (str "AA10")) = true
  /\ isValidCellAddress (Some (str "a1")) = false
  /\ isValidCellAddress (Some (str "A0")) = false
  /\ isValidCellAddress (Some (str "A01")) = false
  /\ isValidCellAddress (Some (str "1A")) = false
  /\ isValidCellAddress (Some (str "")) = false.
Proof.
  split; [|split].
  - intros s. rewrite isValidCellAddress_shape. apply cellShape_spec.
  - intros s. destruct (isValidCellAddress (Some s)); auto.
  - repeat split; vm_compute; reflexivity.
Qed.

(** ** parseSheetIdFromUrl *)

Lemma take_takeRun c x s :
  take (length (x :: s) - length (dropRun c s)) (x :: s) = x :: takeRun c s.
Proof.
  pose proof (dropRun_length c s) as Hle.
  replace (length (x :: s) - length (dropRun c s))%nat
    with (S (length (takeRun c s))).
  - simpl. f_equal. rewrite <- (takeRun_dropRun c s) at 2.
    now rewrite take_app_length.
  - rewrite <- (takeRun_dropRun c s) at 2. simpl. rewrite length_app. lia.
Qed.

Lemma sheetUrl_rmatch input s :
  rmatch input sheetUrlPattern s [] (fun _ caps => Some caps)
  = option_map (fun id => [id]) (idAt s).
Proof.
  unfold sheetUrlPattern, idAt. cbn [rmatch].
  destruct (stripPrefix sheetsSegment s) as [[|x s']|]; try reflexivity.
  destruct (in_class idClass x); [|reflexivity].
  rewrite greedy_longest by (left; discriminate).
  simpl option_map. now rewrite take_takeRun.
Qed.

Lemma sheetUrl_execFrom input s :
  execFrom sheetUrlPattern input s = option_map (fun id => [id]) (firstId s).
Proof.
  induction s as [|x s IH]; cbn [execFrom firstId]; rewrite sheetUrl_rmatch;
    destruct (idAt _); try reflexivity.
  exact IH.
Qed.

Lemma idAt_spec s id :
  idAt s = Some id <->
  exists c rest,
    s = sheetsSegment ++ c :: rest /\ in_class idClass c = true
    /\ id = c :: takeRun idClass rest.
Proof.
  unfold idAt. split.
  - destruct (stripPrefix sheetsSegment s) as [[|x s']|] eqn:E; try discriminate.
    destruct (in_class idClass x) eqn:Hx; [|discriminate].
    intros [= <-]. apply stripPrefix_spec in E. eauto.
  - intros (c & rest & -> & Hc & ->).
    assert (E : stripPrefix sheetsSegment (sheetsSegment ++ c :: rest) = Some (c :: rest))
      by now apply stripPrefix_spec.
    now rewrite E, Hc.
Qed.

Lemma patternAt_nil s : patternAt s [] -> idAt s <> None.
Proof.
  intros (c & rest & E & Hc). apply idClass_spec in Hc.
  assert (H : idAt s = Some (c :: takeRun idClass rest)) by (apply idAt_spec; eauto).
  congruence.
Qed.

Lemma patternAt_cons a s b pre : patternAt (a :: s) (b :: pre) -> patternAt s pre.
Proof. intros (c & rest & [= _ E] & Hc). exists c, rest. auto. Qed.

Lemma firstId_None s : firstId s = None -> ~ containsPattern s.
Proof.
  induction s as [|a s IH]; cbn [firstId]; destruct (idAt _) eqn:E;
    try discriminate; intros H [pre Hp].
  - destruct pre; [now apply patternAt_nil in Hp|].
    destruct Hp as (c & rest & Hs & _). discriminate.
  - destruct pre as [|b pre]; [now apply patternAt_nil in Hp|].
    apply (IH H). exists pre. eapply patternAt_cons, Hp.
Qed.

Lemma firstId_Some s id :
  firstId s = Some id ->
  exists pre c rest,
    s = pre ++ sheetsSegment ++ c :: rest /\ in_class idClass c = true
    /\ id = c :: takeRun idClass rest
    /\ forall pre', patternAt s pre' -> (length pre <= length pre')%nat.
Proof.
  revert id. induction s as [|a s IH]; intros id; cbn [firstId];
    destruct (idAt _) eqn:E.
  - intros [= <-]. apply idAt_spec in E as (c & rest & Hs & Hc & ->).
    exists [], c, rest. repeat split; auto. intros; simpl; lia.
  - discriminate.
  - intros [= <-]. apply idAt_spec in E as (c & rest & Hs & Hc & ->).
    exists [], c, rest. repeat split; auto. intros; simpl; lia.
  - intros H. destruct (IH _ H) as (pre & c & rest & -> & Hc & -> & Hleft).
    exists (a :: pre), c, rest. repeat split; auto.
    intros [|b pre'] Hp; [now apply patternAt_nil in Hp|].
    simpl. apply le_n_S, Hleft. eapply patternAt_cons, Hp.
Qed.

Lemma parseSheetIdFromUrl_firstId url :
  parseSheetIdFromUrl (Some url)
  = match firstId url with
    | Some id => Return id
    | None => Throw (invalidSheetsUrl url)
    end.
Proof.
  unfold parseSheetIdFromUrl, exec. rewrite sheetUrl_execFrom.
  destruct (firstId url) as [id|] eqn:E; [|reflexivity].
  apply firstId_Some in E as (_ & c & rest & _ & _ & -> & _). reflexivity.
Qed.

(** C1. On a string that holds [/spreadsheets/d/] followed at once by a
    character of [[A-Za-z0-9-_]], [parseSheetIdFromUrl] returns the
    maximal run of such characters that follows the segment, at the
    leftmost place where the segment is so followed; on any other string
    it throws the error whose message ends in the offending URL. *)
Theorem parseSheetIdFromUrl_extracts (url : jsstring) :
  (containsPattern url ->
   exists pre id post,
     url = pre ++ sheetsSegment ++ id ++ post
     /\ id <> [] /\ Forall idChar id
     /\ match post with [] => True | c :: _ => ~ idChar c end
     /\ (forall pre', patternAt url pre' -> (length pre <= length pre')%nat)
     /\ parseSheetIdFromUrl (Some url) = Return id)
  /\ (~ containsPattern url ->
      parseSheetIdFromUrl (Some url)
      = Throw (mkError (str "Invalid Google Sheets URL: " ++ url))).
Proof.
  rewrite parseSheetIdFromUrl_firstId. split.
  - intros Hc. destruct (firstId url) as [id|] eqn:E.
    + apply firstId_Some in E as (pre & c & rest & -> & Hcls & -> & Hleft).
      exists pre, (c :: takeRun idClass rest), (dropRun idClass rest).
      split; [|split; [|split; [|split; [|split]]]].
      * change ((c :: takeRun idClass rest) ++ dropRun idClass rest)
          with (c :: (takeRun idClass rest ++ dropRun idClass rest)).
        now rewrite takeRun_dropRun.
      * discriminate.
      * apply (Forall_class _ idClass); [apply idClass_spec|].
        constructor; [exact Hcls | apply takeRun_Forall].
      * destruct (dropRun idClass rest) as [|x t] eqn:Hd; [exact I|].
        apply dropRun_head in Hd. rewrite <- idClass_spec. congruence.
      * exact Hleft.
      * reflexivity.
    + now apply firstId_None in E.
  - intros Hn. destruct (firstId url) as [id|] eqn:E; [|reflexivity].
    exfalso. apply Hn.
    apply firstId_Some in E as (pre & c & rest & -> & Hcls & _).
    exists pre, c, rest. split; [reflexivity | now apply idClass_spec].
Qed.

Lemma parseSheetIdFromUrl_extracts_witness :
  (exists pre id post,
     str "https://docs.google.com/spreadsheets/d/1AbC-d_E/edit"
     = pre ++ sheetsSegment ++ id ++ post
     /\ id <> [] /\ Forall idChar id
     /\ match post with [] => True | c :: _ => ~ idChar c end
     /\ (forall pre',
           patternAt (str "https://docs.google.com/spreadsheets/d/1AbC-d_E/edit") pre' ->
           (length pre <= length pre')%nat)
     /\ parseSheetIdFromUrl (Some (str "https://docs.google.com/spreadsheets/d/1AbC-d_E/edit"))
        = Return id)
  /\ parseSheetIdFromUrl (Some (str "https://example.com/d/1AbC"))
     = Throw (mkError (str "Invalid Google Sheets URL: " ++ str "https://example.com/d/1AbC")).
Proof.
  split.
  - apply (proj1 (parseSheetIdFromUrl_extracts
                    (str "https://docs.google.com/spreadsheets/d/1AbC-d_E/edit"))).
    exists (str "https://docs.google.com"), (codeUnit "1"), (str "AbC-d_E/edit").
    split; [reflexivity|]. right; right; left. vm_compute. split; discriminate.
  - apply (proj2 (parseSheetIdFromUrl_extracts (str "https://example.com/d/1AbC"))).
    apply firstId_None. vm_compute. reflexivity.
Defined.

(** ** Discovery: the scan of the rows *)

Ltac run :=
  cbv [mbind M_bind bind mret M_ret ret throw lift tryCatch logger push
       arrayLength readProperty readArray newArray];
  cbn [fst snd elements logged].

Lemma truthy_Some v : truthy v = true -> exists c s, v = Some (c :: s).
Proof. destruct v as [[|c s]|]; try discriminate. eauto. Qed.

Lemma fullyValidb_spec row : fullyValidb row = true <-> fullyValid row.
Proof.
  unfold fullyValidb, fullyValid. rewrite !andb_true_iff. split.
  - intros [[[H0 H2] H12] Hp]. repeat split; try assumption.
    destruct (parseSheetIdFromUrl (row !! 2%nat)) as [id|]; [eauto | discriminate].
  - intros (H0 & H2 & H12 & id & Hp). rewrite Hp. auto.
Qed.

Lemma rowRecords_valid row :
  fullyValid row -> exists c, rowRecords row = [c] /\ recordOf row c.
Proof.
  intros H. pose proof H as (H0 & H2 & H12 & id & Hp).
  unfold rowRecords. rewrite (proj2 (fullyValidb_spec row) H), Hp.
  eexists. split; [reflexivity|].
  apply truthy_Some in H0 as (c0 & n & E0).
  apply truthy_Some in H2 as (c2 & u & E2).
  apply truthy_Some in H12 as (c12 & w & E12).
  exists (c0 :: n), (c2 :: u), (c12 :: w), id.
  rewrite E0, E12. rewrite E2 in Hp. auto.
Qed.

Lemma rowRecords_invalid row : ~ fullyValid row -> rowRecords row = [].
Proof.
  intros H. unfold rowRecords.
  destruct (fullyValidb row) eqn:E; [|reflexivity].
  now apply fullyValidb_spec in E.
Qed.

(** A row with a cell missing: a debug note and nothing else. *)
Lemma scanRow_missing row i st :
  truthy (row !! 0%nat) = false \/ truthy (row !! 2%nat) = false
  \/ truthy (row !! 12%nat) = false ->
  scanRow row i st
  = (Return tt,
     mkStore (elements st)
       (logged st ++
        [mkLog DEBUG
           (str "Skipping row " ++ numberToString (i + 3)
            ++ str ": missing required fields (name: "
            ++ booleanToString (truthy (row !! 0%nat))
            ++ str ", sheetUrl: " ++ booleanToString (truthy (row !! 2%nat))
            ++ str ", webhookUrl: " ++ booleanToString (truthy (row !! 12%nat))
            ++ str ")") None])).
Proof.
  intros H. unfold scanRow.
  assert (G : negb (truthy (row !! 0%nat)) || negb (truthy (row !! 2%nat))
              || negb (truthy (row !! 12%nat)) = true).
  { rewrite !orb_true_iff, !negb_true_iff. tauto. }
  rewrite G. reflexivity.
Qed.

(** A row with its three cells whose URL cannot be parsed: a warning and
    nothing else. *)
Lemma scanRow_malformed row i st e :
  truthy (row !! 0%nat) = true -> truthy (row !! 2%nat) = true ->
  truthy (row !! 12%nat) = true ->
  parseSheetIdFromUrl (row !! 2%nat) = Throw e ->
  scanRow row i st
  = (Return tt,
     mkStore (elements st)
       (logged st ++
        [mkLog WARN
           (str "Skipping row " ++ numberToString (i + 3) ++ str " ("
            ++ toString (row !! 0%nat) ++ str "): " ++ message e) None])).
Proof.
  intros H0 H2 H12 Hp. unfold scanRow. rewrite H0, H2, H12. cbn [negb orb].
  run. rewrite Hp. reflexivity.
Qed.

(** A fully valid row: its record is pushed, with a debug note. *)
Lemma scanRow_valid row i st id :
  truthy (row !! 0%nat) = true -> truthy (row !! 2%nat) = true ->
  truthy (row !! 12%nat) = true ->
  parseSheetIdFromUrl (row !! 2%nat) = Return id ->
  scanRow row i st
  = (Return tt,
     mkStore
       (elements st ++
        [ {| name := Some (trim (toString (row !! 0%nat)));
             sheetId := Some id;
             sheetName := Some (str "Sheet1");
             webhookUrl := Some (trim (toString (row !! 12%nat)));
             currentSuppliesCell := Some (str "C9");
             dailyConsumptionCell := Some (str "C11") |} ])
       (logged st ++
        [mkLog DEBUG (str "Added configuration for: " ++ toString (row !! 0%nat)) None])).
Proof.
  intros H0 H2 H12 Hp. unfold scanRow. rewrite H0, H2, H12. cbn [negb orb].
  run. rewrite Hp.
  apply truthy_Some in H0 as (c0 & n & ->).
  apply truthy_Some in H12 as (c12 & w & ->).
  reflexivity.
Qed.

(** Whatever the row, the loop body returns, adds the records of the row
    and logs one entry. *)
Lemma scanRow_spec row i st :
  exists entry,
    scanRow row i st
    = (Return tt, mkStore (elements st ++ rowRecords row) (logged st ++ [entry])).
Proof.
  unfold rowRecords, fullyValidb.
  destruct (truthy (row !! 0%nat)) eqn:H0;
    [destruct (truthy (row !! 2%nat)) eqn:H2;
     [destruct (truthy (row !! 12%nat)) eqn:H12|]|];
    cbn [andb].
  2-4: eexists; rewrite scanRow_missing by tauto; rewrite app_nil_r; reflexivity.
  destruct (parseSheetIdFromUrl (row !! 2%nat)) as [id|e] eqn:Hp; eexists.
  - rewrite (scanRow_valid row i st id) by assumption. reflexivity.
  - rewrite (scanRow_malformed row i st e) by assumption.
    rewrite app_nil_r. reflexivity.
Qed.

Lemma scanRows_spec rows i st :
  exists entries,
    scanRows rows i st
    = (Return tt,
       mkStore (elements st ++ flat_map rowRecords rows) (logged st ++ entries))
    /\ length entries = length rows.
Proof.
  revert i st. induction rows as [|row rows IH]; intros i st.
  - exists []. cbn. rewrite !app_nil_r. destruct st; auto.
  - destruct (scanRow_spec row i st) as [entry E].
    destruct (IH (S i) (mkStore (elements st ++ rowRecords row) (logged st ++ [entry])))
      as (entries & E' & Hlen).
    exists (entry :: entries). split; [|simpl; now rewrite Hlen].
    cbn [scanRows]. run. rewrite E, E'. cbn [elements logged flat_map].
    now rewrite <- !app_assoc.
Qed.

Lemma scanned_records rows :
  Forall2 recordOf (filter fullyValid rows) (flat_map rowRecords rows).
Proof.
  induction rows as [|row rows IH]; [constructor|].
  cbn [flat_map]. rewrite filter_cons. destruct (decide (fullyValid row)) as [H|H].
  - destruct (rowRecords_valid row H) as (c & -> & Hc). now constructor.
  - now rewrite (rowRecords_invalid row H).
Qed.

Lemma discover_absent st :
  discover None st = (Throw noCommanderDataError, st)
  /\ discover (Some []) st = (Throw noCommanderDataError, st).
Proof. split; reflexivity. Qed.

Lemma discover_rows row rows st :
  exists entries,
    discover (Some (row :: rows)) st
    = (match flat_map rowRecords (row :: rows) with
       | [] => Throw noValidConfigurationsError
       | _ :: _ => Return tt
       end,
       mkStore (flat_map rowRecords (row :: rows)) (logged st ++ entries))
    /\ length entries = S (length rows).
Proof.
  destruct (scanRows_spec (row :: rows) 0 (mkStore [] (logged st)))
    as (entries & E & Hlen).
  exists entries. split; [|exact Hlen].
  unfold discover. run. rewrite E. cbn [elements logged app].
  now destruct (flat_map rowRecords (row :: rows)).
Qed.

(** ** Validation *)

Section Validation.
Variable urlParses : jsstring -> bool.

Lemma checkRequired_spec index o st fields :
  elements st !! index = Some o ->
  checkRequired index fields st
  = (match find (fun field => negb (truthy (property o field))) fields with
     | Some field => Throw (missingFieldError index field)
     | None => Return tt
     end, st).
Proof.
  intros Ho. induction fields as [|field fields IH]; [reflexivity|].
  cbn [checkRequired find]. run. rewrite Ho.
  destruct (negb (truthy (property o field))); [reflexivity | exact IH].
Qed.

(** The callback reports the first violation of the record it visits,
    and leaves the store as it found it. *)
Lemma validateSheetConfig_spec index o st :
  elements st !! index = Some o ->
  validateSheetConfig urlParses index st
  = (match firstViolation urlParses o with
     | Some v => Throw (violationError index o v)
     | None => Return tt
     end, st).
Proof.
  intros Ho. unfold validateSheetConfig, firstViolation, newURL. run.
  rewrite (checkRequired_spec index o st requiredFields Ho).
  cbn [requiredFields find].
  assert (P1 : property o "name" = name o) by reflexivity.
  assert (P2 : property o "sheetId" = sheetId o) by reflexivity.
  assert (P3 : property o "webhookUrl" = webhookUrl o) by reflexivity.
  assert (P4 : property o "currentSuppliesCell" = currentSuppliesCell o) by reflexivity.
  assert (P5 : property o "dailyConsumptionCell" = dailyConsumptionCell o) by reflexivity.
  rewrite P1, P2, P3, P4, P5.
  destruct (negb (truthy (name o))); [reflexivity|].
  destruct (negb (truthy (sheetId o))); [reflexivity|].
  destruct (negb (truthy (webhookUrl o))); [reflexivity|].
  destruct (negb (truthy (currentSuppliesCell o))); [reflexivity|].
  destruct (negb (truthy (dailyConsumptionCell o))); [reflexivity|].
  rewrite Ho, P3.
  destruct (urlParses (toString (webhookUrl o))); cbn [negb]; cbv beta iota;
    rewrite ?Ho, ?P3, ?P4; [|reflexivity].
  destruct (isValidCellAddress (currentSuppliesCell o)); cbn [negb]; cbv beta iota;
    rewrite ?Ho, ?P4, ?P5; [|reflexivity].
  destruct (isValidCellAddress (dailyConsumptionCell o)); cbn [negb]; cbv beta iota;
    rewrite ?Ho, ?P5; reflexivity.
Qed.

Lemma forEachFrom_spec l2 : forall l1 st,
  elements st = l1 ++ l2 ->
  forEachFrom (validateSheetConfig urlParses) (length l1) (length l2) st
  = (match firstFailure urlParses (length l1) l2 with
     | Some e => Throw e
     | None => Return tt
     end, st).
Proof.
  induction l2 as [|o l2 IH]; intros l1 st Hst; [reflexivity|].
  cbn [length forEachFrom firstFailure]. run.
  rewrite (validateSheetConfig_spec (length l1) o st).
  2:{ rewrite Hst. now rewrite list_lookup_middle. }
  destruct (firstViolation urlParses o); [reflexivity|].
  specialize (IH (l1 ++ [o]) st). rewrite length_app in IH. cbn [length] in IH.
  rewrite Nat.add_1_r in IH. apply IH. now rewrite <- app_assoc.
Qed.

(** [validateConfig] answers [validation] of the elements, changes no
    element, and logs one line when it accepts. *)
Lemma validateConfig_spec st :
  exists entries,
    validateConfig urlParses TheArray st
    = (validation urlParses (elements st),
       mkStore (elements st) (logged st ++ entries)).
Proof.
  unfold validateConfig, forEach, validation. run.
  destruct (elements st) as [|o l] eqn:E.
  - exists []. cbn. rewrite app_nil_r. destruct st; cbn in *. now subst.
  - cbn [length Nat.eqb].
    pose proof (forEachFrom_spec (o :: l) [] st E) as H.
    rewrite <- E in H at 1. cbn [length] in H.
    rewrite H. destruct (firstFailure urlParses 0 (o :: l)).
    + exists []. rewrite app_nil_r. destruct st; cbn in *. now subst.
    + eexists. rewrite E. reflexivity.
Qed.

Lemma validateConfig_notArray st :
  validateConfig urlParses NotAnArray st = (Throw notAnArrayError, st).
Proof. reflexivity. Qed.

Lemma firstFailure_None index l :
  firstFailure urlParses index l = None
  <-> Forall (fun o => firstViolation urlParses o = None) l.
Proof.
  revert index. induction l as [|o l IH]; intros index; cbn [firstFailure].
  - split; [constructor | reflexivity].
  - destruct (firstViolation urlParses o) eqn:E.
    + split; [discriminate|]. intros H. inversion H; congruence.
    + rewrite IH. split; [now constructor | intros H; now inversion H].
Qed.

Lemma firstFailure_first l1 o l2 v index :
  Forall (fun o' => firstViolation urlParses o' = None) l1 ->
  firstViolation urlParses o = Some v ->
  firstFailure urlParses index (l1 ++ o :: l2)
  = Some (violationError (index + length l1) o v).
Proof.
  intros H1 Ho. revert index. induction H1 as [|o' l1 Ho' _ IH]; intros index.
  - cbn [app firstFailure length]. now rewrite Ho, Nat.add_0_r.
  - cbn [app firstFailure length]. rewrite Ho', IH. do 2 f_equal. lia.
Qed.
End Validation.

(** ** loadConfig as a whole *)

Section Loading.
Variable urlParses : jsstring -> bool.
Variable DATABASE_SHEET_ID : value.
Variable initialize : result unit.
Variable getRange : jsstring -> jsstring -> jsstring -> result (option (list Row)).

Lemma loadConfigTry_outcome st :
  fst (loadConfigTry urlParses DATABASE_SHEET_ID initialize getRange st)
  = tryOutcome urlParses DATABASE_SHEET_ID initialize getRange.
Proof.
  unfold loadConfigTry, tryOutcome.
  destruct (negb (truthy DATABASE_SHEET_ID)); [reflexivity|].
  destruct initialize as [[]|e]; [|reflexivity].
  run.
  destruct (getRange _ _ _) as [[[|row rows]|]|e]; try reflexivity.
  match goal with |- context [discover _ ?s] =>
    destruct (discover_rows row rows s) as (entries & E & _); rewrite E end.
  destruct (flat_map rowRecords (row :: rows)) as [|c config]; [reflexivity|].
  match goal with |- context [validateConfig _ _ ?s] =>
    destruct (validateConfig_spec urlParses s) as (entries' & E'); rewrite E' end.
  cbn [elements logged].
  destruct (validation urlParses (c :: config)); reflexivity.
Qed.

(** The [catch] clause turns the error of the [try] block into the
    error the caller sees. *)
Lemma loadConfig_outcome st :
  fst (loadConfig urlParses DATABASE_SHEET_ID initialize getRange st)
  = match tryOutcome urlParses DATABASE_SHEET_ID initialize getRange with
    | Return config => Return config
    | Throw e => Throw (loadingFailed e)
    end.
Proof.
  rewrite <- (loadConfigTry_outcome st). unfold loadConfig. run.
  destruct (loadConfigTry _ _ _ _ st) as [[config|e] st']; reflexivity.
Qed.
End Loading.

(** ** The scenario of the specification *)

Example demo_scan :
  scanRows demoRows 0 emptyStore
  = (Return tt,
     mkStore demoConfig
       [ mkLog DEBUG (str "Added configuration for: Saraian 1st Army") None;
         mkLog DEBUG (str "Skipping row 4: missing required fields (name: false, sheetUrl: false, webhookUrl: false)") None;
         mkLog DEBUG (str "Added configuration for: Keltic Raiders") None ]).
Proof. vm_compute. reflexivity. Qed.

Example demo_loadConfig :
  fst (loadConfig demoUrlOk (Some (str "db")) (Return tt)
         (fun _ _ _ => Return (Some demoRows)) emptyStore)
  = Return demoConfig.
Proof. vm_compute. reflexivity. Qed.

Example demo_malformed :
  scanRow malformedRow 4 emptyStore
  = (Return tt,
     mkStore []
       [ mkLog WARN (str "Skipping row 7 (Northern Legion): Invalid Google Sheets URL: https://docs.google.com/document/d/1DeF") None ]).
Proof. vm_compute. reflexivity. Qed.

(** ** Discovery: rows and their records *)

Lemma extractable_truthy v : extractable v -> truthy v = true.
Proof.
  intros [id H]. destruct v as [[|c s]|]; [|reflexivity|]; discriminate.
Qed.

Lemma filter_all_valid rows : Forall fullyValid rows -> filter fullyValid rows = rows.
Proof.
  induction 1 as [|row rows H _ IH]; [reflexivity|].
  rewrite filter_cons. destruct (decide (fullyValid row)); [now rewrite IH | tauto].
Qed.

Lemma flat_map_rowRecords_nil rows :
  Forall (fun row => ~ fullyValid row) rows -> flat_map rowRecords rows = [].
Proof.
  induction 1 as [|row rows H _ IH]; [reflexivity|].
  cbn [flat_map]. now rewrite (rowRecords_invalid row H), IH.
Qed.

Lemma flat_map_rowRecords_cons rows :
  Exists fullyValid rows -> flat_map rowRecords rows <> [].
Proof.
  induction 1 as [row rows H|row rows _ IH]; cbn [flat_map].
  - destruct (rowRecords_valid row H) as (c & -> & _). discriminate.
  - intros E. apply app_eq_nil in E as [_ E]. auto.
Qed.

(** ** A name of white space only *)

Lemma missing_truthy v : missing v <-> truthy v = false.
Proof.
  unfold missing. destruct v as [[|c s]|]; cbn; split; intros H; auto;
    try discriminate; destruct H; discriminate.
Qed.

Lemma whitespaceOnly_throws u :
  whitespaceOnly u -> parseSheetIdFromUrl (Some u) = Throw (invalidSheetsUrl u).
Proof.
  intros [_ Hws]. rewrite parseSheetIdFromUrl_firstId.
  destruct (firstId u) as [id|] eqn:E; [|reflexivity]. exfalso.
  apply firstId_Some in E as (pre & c & rest & -> & _).
  apply Forall_app in Hws as [_ Hws].
  change sheetsSegment with (codeUnit "/" :: str "spreadsheets/d/") in Hws.
  inversion Hws as [|? ? Hslash _]. vm_compute in Hslash. discriminate.
Qed.

Lemma tryOutcome_same_records urlParses env init rows rows' :
  rows <> [] -> rows' <> [] ->
  flat_map rowRecords rows = flat_map rowRecords rows' ->
  tryOutcome urlParses env init (fun _ _ _ => Return (Some rows))
  = tryOutcome urlParses env init (fun _ _ _ => Return (Some rows')).
Proof.
  intros Hne Hne' E. unfold tryOutcome.
  destruct rows as [|r rows]; [congruence|].
  destruct rows' as [|r' rows']; [congruence|].
  now rewrite E.
Qed.

(** C4. A row whose name is white space only should be skipped like a row
    whose name is empty, and cause no fatal error. The code misses it: the
    guard of line 74 tests the name before line 87 trims it, so for a row
    whose name is one space, with a good URL and endpoint, the scan pushes
    a record with the empty name, and the run that would have returned the
    record of the row before it ends with the validator's error for a
    missing name. *)
Lemma blank_name_row_is_not_skipped :
  (exists s, blankNameRow !! 0%nat = Some s /\ whitespaceOnly s)
  /\ elements (snd (scanRow blankNameRow 1 emptyStore))
     = [ {| name := Some [];
            sheetId := Some (str "1AbCdEfG");
            sheetName := Some (str "Sheet1");
            webhookUrl := Some (str "https://discord.com/api/webhooks/123/abc");
            currentSuppliesCell := Some (str "C9");
            dailyConsumptionCell := Some (str "C11") |} ]
  /\ fst (loadConfig (fun _ => true) (Some (str "db")) (Return tt)
            (fun _ _ _ => Return (Some [kelticRow; blankNameRow])) emptyStore)
     = Throw (mkError (str "Configuration loading failed: Sheet configuration 1 is missing required field: name"))
  /\ fst (loadConfig (fun _ => true) (Some (str "db")) (Return tt)
            (fun _ _ _ => Return (Some [kelticRow])) emptyStore)
     = Return [ {| name := Some (str "Keltic Raiders");
                   sheetId := Some (str "1ZyXwVu");
                   sheetName := Some (str "Sheet1");
                   webhookUrl := Some (str "https://discord.com/api/webhooks/456/def");
                   currentSuppliesCell := Some (str "C9");
                   dailyConsumptionCell := Some (str "C11") |} ].
Proof.
  split; [|split; [|split]].
  - exists (str " "). split; [reflexivity|]. split; [discriminate|].
    repeat constructor.
  - vm_compute. reflexivity.
  - vm_compute. reflexivity.
  - vm_compute. reflexivity.
Qed.

(** ** The two failures of discovery *)

(** C5. Discovery throws the no-commander-data error when the rows are
    absent or empty, and the no-valid-configurations error when there are
    rows and none of them yields a record. The two errors have different
    messages, and so have the errors [loadConfig] hands to its caller in
    the two cases. *)
Theorem discover_failure_kinds :
  (forall st,
     discover None st = (Throw noCommanderDataError, st)
     /\ discover (Some []) st = (Throw noCommanderDataError, st))
  /\ (forall rows st,
        rows <> [] -> Forall (fun row => ~ fullyValid row) rows ->
        fst (discover (Some rows) st) = Throw noValidConfigurationsError)
  /\ message noCommanderDataError
     = str "No commander data found in Commander Database sheet"
  /\ message noValidConfigurationsError
     = str "No valid commander configurations found in Commander Database sheet"
  /\ message noCommanderDataError <> message noValidConfigurationsError
  /\ (forall urlParses env init getRange st,
        truthy env = true -> init = Return tt ->
        (getRange (toString env) (str "A3:M") (str "Commander Database") = Return None
         \/ getRange (toString env) (str "A3:M") (str "Commander Database")
            = Return (Some [])) ->
        fst (loadConfig urlParses env init getRange st)
        = Throw (loadingFailed noCommanderDataError))
  /\ (forall urlParses env init getRange st rows,
        truthy env = true -> init = Return tt ->
        getRange (toString env) (str "A3:M") (str "Commander Database")
        = Return (Some rows) ->
        rows <> [] -> Forall (fun row => ~ fullyValid row) rows ->
        fst (loadConfig urlParses env init getRange st)
        = Throw (loadingFailed noValidConfigurationsError))
  /\ message (loadingFailed noCommanderDataError)
     <> message (loadingFailed noValidConfigurationsError).
Proof.
  split; [exact discover_absent|]. split.
  { intros rows st Hne Hnone. destruct rows as [|row rows']; [congruence|].
    destruct (discover_rows row rows' st) as (entries & E & _). rewrite E.
    now rewrite (flat_map_rowRecords_nil _ Hnone). }
  split; [reflexivity|]. split; [reflexivity|]. split; [vm_compute; discriminate|].
  split.
  { intros urlParses env init getRange st Henv -> Hrows.
    rewrite loadConfig_outcome. unfold tryOutcome. rewrite Henv. cbn [negb].
    destruct Hrows as [-> | ->]; reflexivity. }
  split; [|vm_compute; discriminate].
  intros urlParses env init getRange st rows Henv -> Hrows Hne Hnone.
  rewrite loadConfig_outcome. unfold tryOutcome. rewrite Henv, Hrows. cbn [negb].
  destruct rows as [|row rows']; [congruence|].
  now rewrite (flat_map_rowRecords_nil _ Hnone).
Qed.

Lemma discover_failure_kinds_witness :
  fst (discover (Some [shortRow; malformedRow]) emptyStore)
  = Throw noValidConfigurationsError
  /\ fst (loadConfig demoUrlOk (Some (str "db")) (Return tt)
            (fun _ _ _ => Return (Some [])) emptyStore)
     = Throw (loadingFailed noCommanderDataError).
Proof.
  destruct discover_failure_kinds as (_ & Hnone & _ & _ & _ & Hempty & _).
  split.
  - apply Hnone; [discriminate|].
    repeat constructor; intros H; apply fullyValidb_spec in H; vm_compute in H;
      discriminate.
  - apply Hempty; [reflexivity | reflexivity | now right].
Defined.

(** ** Short rows *)

(** C9. A row of any length is read without failure. In a row with fewer
    than 13 cells position 12, like every position at or past the length,
    reads as absent; the row counts as missing a required field, the loop
    body adds no record and logs a debug note, and the scan goes on with
    the next row. The scan of any rows throws nothing. *)
Theorem short_row_is_skipped (row : Row) (i : nat) (st : store) :
  (length row < 13)%nat ->
  row !! 12%nat = None
  /\ (forall j, (length row <= j)%nat -> row !! j = None)
  /\ (exists entry,
        scanRow row i st = (Return tt, mkStore (elements st) (logged st ++ [entry]))
        /\ lvl entry = DEBUG
        /\ forall rows,
             scanRows (row :: rows) i st
             = scanRows rows (S i) (mkStore (elements st) (logged st ++ [entry])))
  /\ (forall rows i' st', fst (scanRows rows i' st') = Return tt).
Proof.
  intros Hlen.
  assert (H12 : row !! 12%nat = None) by (apply lookup_ge_None; lia).
  split; [exact H12|]. split; [intros j Hj; now apply lookup_ge_None|]. split.
  - eexists. rewrite scanRow_missing by (rewrite H12; auto).
    split; [reflexivity|]. split; [reflexivity|].
    intros rows. cbn [scanRows]. run.
    rewrite scanRow_missing by (rewrite H12; auto). reflexivity.
  - intros rows i' st'. destruct (scanRows_spec rows i' st') as (entries & E & _).
    now rewrite E.
Qed.

Lemma short_row_is_skipped_witness :
  (length shortRow < 13)%nat
  /\ shortRow !! 12%nat = None
  /\ exists entry,
       scanRow shortRow 0 emptyStore = (Return tt, mkStore [] [entry])
       /\ lvl entry = DEBUG.
Proof.
  assert (H : (length shortRow < 13)%nat) by (vm_compute; lia).
  split; [exact H|].
  destruct (short_row_is_skipped shortRow 0 emptyStore H)
    as (H12 & _ & (entry & E & L & _) & _).
  split; [exact H12|]. exists entry. split; [exact E | exact L].
Defined.

(** ** The claims about validation *)

(** C6. [validateConfig] fails on the first violation it meets. It first
    requires an array, then a non-empty one; then it visits the records in
    index order and checks in each the five required fields in their
    order, then the endpoint URL, then the two cell addresses, and throws
    the error of the first check that fails, naming the index of the
    record. It returns exactly when the array is non-empty and every
    record passes every check. *)
Theorem validateConfig_fail_fast (urlParses : jsstring -> bool) (st : store) :
  fst (validateConfig urlParses NotAnArray st) = Throw notAnArrayError
  /\ (elements st = [] ->
      fst (validateConfig urlParses TheArray st) = Throw emptyArrayError)
  /\ (forall l1 o l2 v,
        elements st = l1 ++ o :: l2 ->
        Forall (fun o' => firstViolation urlParses o' = None) l1 ->
        firstViolation urlParses o = Some v ->
        fst (validateConfig urlParses TheArray st)
        = Throw (violationError (length l1) o v))
  /\ (fst (validateConfig urlParses TheArray st) = Return tt
      <-> elements st <> []
          /\ Forall (fun o => firstViolation urlParses o = None) (elements st)).
Proof.
  destruct (validateConfig_spec urlParses st) as (entries & E). rewrite E.
  cbn [fst]. split; [reflexivity|]. split; [intros ->; reflexivity|]. split.
  - intros l1 o l2 v Hst H1 Ho. rewrite Hst. unfold validation.
    rewrite (firstFailure_first urlParses l1 o l2 v 0 H1 Ho).
    now destruct l1.
  - unfold validation. destruct (elements st) as [|o l] eqn:El.
    + split; [discriminate | intros [H _]; congruence].
    + rewrite <- firstFailure_None with (index := 0%nat).
      destruct (firstFailure urlParses 0 (o :: l)).
      * split; [discriminate | intros [_ H]; discriminate].
      * split; [intros _; split; [discriminate|reflexivity] | reflexivity].
Qed.

Lemma validateConfig_fail_fast_witness :
  fst (validateConfig demoUrlOk TheArray (mkStore (demoConfig ++ [brokenRecord]) []))
  = Throw (mkError (str "Sheet configuration 2 is missing required field: sheetId"))
  /\ fst (validateConfig demoUrlOk TheArray (mkStore demoConfig [])) = Return tt.
Proof.
  split.
  - destruct (validateConfig_fail_fast demoUrlOk
                (mkStore (demoConfig ++ [brokenRecord]) [])) as (_ & _ & H & _).
    rewrite (H demoConfig brokenRecord [] (MissingField "sheetId")).
    + vm_compute. reflexivity.
    + reflexivity.
    + repeat constructor.
    + reflexivity.
  - apply (proj2 (proj2 (proj2 (validateConfig_fail_fast demoUrlOk (mkStore demoConfig []))))).
    split; [discriminate | repeat constructor].
Defined.

(** C10. [validateConfig] only reads: whether it returns or throws, the
    array and every field of every record in it are after the call what
    they were before. *)
Theorem validateConfig_reads_only (urlParses : jsstring -> bool)
    (config : argument) (st : store) :
  elements (snd (validateConfig urlParses config st)) = elements st.
Proof.
  destruct config.
  - destruct (validateConfig_spec urlParses st) as (entries & E). now rewrite E.
  - reflexivity.
Qed.

(** ** The errors the caller sees *)

(** C8. Whatever error ends the [try] block of [loadConfig], the caller
    gets an error whose message is [Configuration loading failed: ]
    followed by the message of that error. So it is for a missing
    DATABASE_SHEET_ID, for absent or empty rows, for rows that yield no
    record, and for every error of [validateConfig]. *)
Theorem loadConfig_wraps_errors (urlParses : jsstring -> bool) (env : value)
    (init : result unit)
    (getRange : jsstring -> jsstring -> jsstring -> result (option (list Row)))
    (st : store) :
  (forall cause st',
     loadConfigTry urlParses env init getRange st = (Throw cause, st') ->
     fst (loadConfig urlParses env init getRange st)
     = Throw (mkError (str "Configuration loading failed: " ++ message cause)))
  /\ (forall e,
        fst (loadConfig urlParses env init getRange st) = Throw e ->
        exists cause st',
          loadConfigTry urlParses env init getRange st = (Throw cause, st')
          /\ message e = str "Configuration loading failed: " ++ message cause)
  /\ (truthy env = false ->
      fst (loadConfig urlParses env init getRange st)
      = Throw (mkError (str "Configuration loading failed: "
                        ++ str "DATABASE_SHEET_ID environment variable is required")))
  /\ (forall rows,
        truthy env = true -> init = Return tt ->
        getRange (toString env) (str "A3:M") (str "Commander Database") = Return rows ->
        (rows = None \/ rows = Some [] ->
         fst (loadConfig urlParses env init getRange st)
         = Throw (mkError (str "Configuration loading failed: "
                           ++ message noCommanderDataError)))
        /\ (forall rs,
              rows = Some rs -> rs <> [] -> Forall (fun row => ~ fullyValid row) rs ->
              fst (loadConfig urlParses env init getRange st)
              = Throw (mkError (str "Configuration loading failed: "
                                ++ message noValidConfigurationsError)))
        /\ (forall rs log e,
              rows = Some rs -> Exists fullyValid rs ->
              fst (validateConfig urlParses TheArray
                     (mkStore (flat_map rowRecords rs) log)) = Throw e ->
              fst (loadConfig urlParses env init getRange st)
              = Throw (mkError (str "Configuration loading failed: " ++ message e)))).
Proof.
  split; [|split; [|split]].
  - intros cause st' E. unfold loadConfig. run. now rewrite E.
  - intros e. unfold loadConfig. run.
    destruct (loadConfigTry urlParses env init getRange st) as [[config|cause] st'];
      [discriminate|].
    intros [= <-]. eauto.
  - intros Henv. rewrite loadConfig_outcome. unfold tryOutcome. now rewrite Henv.
  - intros rows Henv -> Hrows. rewrite loadConfig_outcome. unfold tryOutcome.
    rewrite Henv, Hrows. cbn [negb]. split; [|split].
    + intros [-> | ->]; reflexivity.
    + intros rs -> Hne Hnone. destruct rs as [|row rs']; [congruence|].
      now rewrite (flat_map_rowRecords_nil _ Hnone).
    + intros rs log e -> Hex Hv.
      pose proof (flat_map_rowRecords_cons rs Hex) as Hne.
      destruct rs as [|row rs']; [inversion Hex|].
      destruct (validateConfig_spec urlParses
                  (mkStore (flat_map rowRecords (row :: rs')) log)) as (entries & E).
      rewrite E in Hv. cbn [fst elements] in Hv.
      destruct (flat_map rowRecords (row :: rs')) as [|c config]; [congruence|].
      now rewrite Hv.
Qed.

Lemma loadConfig_wraps_errors_witness :
  fst (loadConfig demoUrlOk None (Return tt)
         (fun _ _ _ => Return (Some demoRows)) emptyStore)
  = Throw (mkError (str "Configuration loading failed: DATABASE_SHEET_ID environment variable is required"))
  /\ fst (loadConfig demoUrlOk (Some (str "db")) (Return tt)
            (fun _ _ _ => Return (Some [shortRow])) emptyStore)
     = Throw (mkError (str "Configuration loading failed: No valid commander configurations found in Commander Database sheet")).
Proof.
  split.
  - apply (loadConfig_wraps_errors demoUrlOk None (Return tt)
             (fun _ _ _ => Return (Some demoRows)) emptyStore).
    reflexivity.
  - destruct (loadConfig_wraps_errors demoUrlOk (Some (str "db")) (Return tt)
                (fun _ _ _ => Return (Some [shortRow])) emptyStore)
      as (_ & _ & _ & H).
    destruct (H (Some [shortRow]) eq_refl eq_refl eq_refl) as (_ & Hnone & _).
    apply (Hnone [shortRow] eq_refl); [discriminate|].
    repeat constructor. intros V. apply fullyValidb_spec in V. vm_compute in V.
    discriminate.
Defined.

(** What the caller gets when the environment and the service are fine:
    the scanned records, once [validateConfig] has accepted them. *)
Lemma loadConfig_returns urlParses env init getRange st row rows :
  truthy env = true -> init = Return tt ->
  getRange (toString env) (str "A3:M") (str "Commander Database")
  = Return (Some (row :: rows)) ->
  flat_map rowRecords (row :: rows) <> [] ->
  fst (loadConfig urlParses env init getRange st)
  = match validation urlParses (flat_map rowRecords (row :: rows)) with
    | Return _ => Return (flat_map rowRecords (row :: rows))
    | Throw e => Throw (loadingFailed e)
    end.
Proof.
  intros Henv -> Hrows Hne. rewrite loadConfig_outcome. unfold tryOutcome.
  rewrite Henv, Hrows. cbn [negb].
  destruct (flat_map rowRecords (row :: rows)) as [|c config]; [congruence|].
  now destruct (validation urlParses (c :: config)).
Qed.

Lemma isValidCellAddress_grammar_witness :
  isValidCellAddress (Some (str "AB120")) = true.
Proof.
  apply (proj1 isValidCellAddress_grammar).
  exists (str "AB"), (codeUnit "1"), (str "20").
  split; [reflexivity|]. split; [discriminate|].
  split; [|split]; repeat constructor; vm_compute; discriminate.
Defined.

(** * Further properties of the code *)

(** ** parseSheetIdFromUrl: building a URL and parsing it back *)

Lemma idAt_starts s id :
  idAt s = Some id ->
  exists s', s = codeUnit "/" :: codeUnit "s" :: s'.
Proof.
  intros H. apply idAt_spec in H as (c & rest & -> & _). eexists. reflexivity.
Qed.

Lemma firstId_skips_prefix pre s :
  followedBy (codeUnit "/") (codeUnit "s") pre = false ->
  (forall s', s <> codeUnit "s" :: s') ->
  firstId (pre ++ s) = firstId s.
Proof.
  induction pre as [|a pre IH]; intros Hpre Hs; [reflexivity|].
  cbn [app firstId].
  destruct (idAt (a :: pre ++ s)) as [id|] eqn:E.
  - exfalso. apply idAt_starts in E as (s' & E).
    destruct pre as [|b pre]; cbn [app] in E.
    + injection E as _ E. exact (Hs _ E).
    + injection E as -> -> _. cbn [followedBy] in Hpre.
      rewrite !N.eqb_refl in Hpre. discriminate.
  - apply IH; [|exact Hs].
    destruct pre as [|b pre]; [reflexivity|].
    cbn [followedBy] in Hpre. now apply orb_false_iff in Hpre as [_ Hpre].
Qed.

(** X1. A URL put together from a prefix in which no [/] is followed by
    [s], the segment [/spreadsheets/d/], a non-empty identifier over
    [[A-Za-z0-9-_]] and a rest that does not go on with such a character
    parses back to that identifier. *)
Theorem parseSheetIdFromUrl_round_trip (pre id post : jsstring) :
  followedBy (codeUnit "/") (codeUnit "s") pre = false ->
  id <> [] -> Forall idChar id ->
  match post with [] => True | c :: _ => ~ idChar c end ->
  parseSheetIdFromUrl (Some (pre ++ sheetsSegment ++ id ++ post)) = Return id.
Proof.
  intros Hpre Hne Hid Hpost. rewrite parseSheetIdFromUrl_firstId.
  rewrite firstId_skips_prefix; [|exact Hpre|discriminate].
  destruct id as [|c id]; [congruence|].
  inversion Hid as [|? ? Hc Hid']; subst.
  assert (E : idAt (sheetsSegment ++ (c :: id) ++ post) = Some (c :: id)).
  { apply idAt_spec. exists c, (id ++ post). split; [reflexivity|].
    split; [now apply idClass_spec|]. f_equal. symmetry. apply takeRun_app.
    - now apply (Forall_class idChar idClass); [apply idClass_spec|].
    - destruct post as [|x post]; [exact I|].
      destruct (in_class idClass x) eqn:Ex; [|reflexivity].
      now apply idClass_spec in Ex. }
  destruct sheetsSegment as [|x seg] eqn:Eseg; [discriminate|].
  cbn [app firstId] in *. now rewrite E.
Qed.

Lemma parseSheetIdFromUrl_round_trip_witness :
  parseSheetIdFromUrl
    (Some (str "https://docs.google.com" ++ sheetsSegment ++ str "1Ab-_9"
           ++ str "/edit#gid=0"))
  = Return (str "1Ab-_9").
Proof.
  apply parseSheetIdFromUrl_round_trip.
  - reflexivity.
  - discriminate.
  - apply (proj1 (Forall_class idChar idClass (str "1Ab-_9") idClass_spec)).
    repeat constructor.
  - intros H. apply idClass_spec in H. discriminate.
Defined.

(** ** The scan: what it reads, what it logs, how it composes *)

Lemma sameCell_truthy v v' : sameCell v v' -> truthy v = truthy v'.
Proof. intros [-> | [-> ->]]; reflexivity. Qed.

Lemma sameCell_eq v v' : sameCell v v' -> truthy v = true -> v = v'.
Proof. intros [H | [H _]] T; [exact H | congruence]. Qed.

Lemma scanRow_same row row' i st :
  sameKeyCells row row' -> scanRow row i st = scanRow row' i st.
Proof.
  intros (S0 & S2 & S12).
  pose proof (sameCell_truthy _ _ S0) as T0.
  pose proof (sameCell_truthy _ _ S2) as T2.
  pose proof (sameCell_truthy _ _ S12) as T12.
  destruct (negb (truthy (row !! 0%nat)) || negb (truthy (row !! 2%nat))
            || negb (truthy (row !! 12%nat))) eqn:G.
  - assert (Hm : truthy (row !! 0%nat) = false \/ truthy (row !! 2%nat) = false
                 \/ truthy (row !! 12%nat) = false).
    { rewrite !orb_true_iff, !negb_true_iff in G. tauto. }
    rewrite (scanRow_missing row i st Hm).
    rewrite (scanRow_missing row' i st) by (rewrite <- T0, <- T2, <- T12; exact Hm).
    now rewrite T0, T2, T12.
  - rewrite !orb_false_iff, !negb_false_iff in G. destruct G as [[H0 H2] H12].
    unfold scanRow.
    rewrite <- (sameCell_eq _ _ S0 H0), <- (sameCell_eq _ _ S2 H2),
      <- (sameCell_eq _ _ S12 H12).
    reflexivity.
Qed.

Lemma scanRows_same rows rows' :
  Forall2 sameKeyCells rows rows' ->
  forall i st, scanRows rows i st = scanRows rows' i st.
Proof.
  induction 1 as [|row row' rows rows' H _ IH]; intros i st; [reflexivity|].
  cbn [scanRows]. run. rewrite (scanRow_same row row' i st H).
  destruct (scanRow row' i st) as [[[]|e] st']; [apply IH | reflexivity].
Qed.

(** X2. The scan reads the cells 0, 2 and 12 of a row and nothing else,
    and it does not tell an absent cell from an empty one: on two lists of
    rows that agree on these cells, up to absent against empty,
    [loadConfig] gives the same result and leaves the same log. *)
Theorem loadConfig_reads_three_cells (urlParses : jsstring -> bool) (env : value)
    (init : result unit) (rows rows' : list Row) (st : store) :
  Forall2 sameKeyCells rows rows' ->
  loadConfig urlParses env init (fun _ _ _ => Return (Some rows)) st
  = loadConfig urlParses env init (fun _ _ _ => Return (Some rows')) st.
Proof.
  intros H.
  assert (D : forall s, discover (Some rows) s = discover (Some rows') s).
  { intros s. destruct H as [|row row' rows rows' H1 H2]; [reflexivity|].
    unfold discover. run.
    assert (HF : Forall2 sameKeyCells (row :: rows) (row' :: rows'))
      by now constructor.
    now rewrite (scanRows_same _ _ HF). }
  unfold loadConfig, loadConfigTry. run.
  destruct (negb (truthy env)); [reflexivity|].
  destruct init as [[]|e]; [|reflexivity].
  now rewrite D.
Qed.

Lemma loadConfig_reads_three_cells_witness :
  loadConfig demoUrlOk (Some (str "db")) (Return tt)
    (fun _ _ _ => Return (Some [shortRow; saraianRow])) emptyStore
  = loadConfig demoUrlOk (Some (str "db")) (Return tt)
      (fun _ _ _ =>
         Return (Some [ take 1 shortRow ++ [str "note"] ++ drop 2 shortRow
                        ++ replicate 10 [];
                        saraianRow ++ [str "more"] ])) emptyStore.
Proof.
  apply loadConfig_reads_three_cells.
  constructor; [split; [|split]|constructor; [split; [|split]|constructor]];
    first [left; reflexivity | right; split; reflexivity].
Defined.

Lemma scanRows_app rows1 rows2 i st :
  scanRows (rows1 ++ rows2) i st
  = scanRows rows2 (i + length rows1) (snd (scanRows rows1 i st)).
Proof.
  revert i st. induction rows1 as [|row rows1 IH]; intros i st.
  - cbn. now rewrite Nat.add_0_r.
  - cbn [app scanRows length]. run.
    destruct (scanRow_spec row i st) as [entry E]. rewrite E.
    rewrite IH. now rewrite Nat.add_succ_r.
Qed.

Lemma scanRow_entry row i st :
  exists entry,
    scanRow row i st
    = (Return tt, mkStore (elements st ++ rowRecords row) (logged st ++ [entry]))
    /\ (lvl entry = DEBUG \/ lvl entry = WARN).
Proof.
  unfold rowRecords, fullyValidb.
  destruct (truthy (row !! 0%nat)) eqn:H0;
    [destruct (truthy (row !! 2%nat)) eqn:H2;
     [destruct (truthy (row !! 12%nat)) eqn:H12|]|];
    cbn [andb].
  2-4: eexists; rewrite scanRow_missing by tauto; rewrite app_nil_r;
       split; [reflexivity | now left].
  destruct (parseSheetIdFromUrl (row !! 2%nat)) as [id|e] eqn:Hp; eexists.
  - rewrite (scanRow_valid row i st id) by assumption. split; [reflexivity|now left].
  - rewrite (scanRow_malformed row i st e) by assumption.
    rewrite app_nil_r. split; [reflexivity | now right].
Qed.

(** X3. Scanning a list of rows in two batches is scanning it at once:
    the second batch starts from the store the first one left, at the
    index the first one reached. *)
Theorem scan_in_batches (rows1 rows2 : list Row) (i : nat) (st : store) :
  scanRows (rows1 ++ rows2) i st
  = scanRows rows2 (i + length rows1) (snd (scanRows rows1 i st))
  /\ fst (scanRows rows1 i st) = Return tt.
Proof.
  split; [apply scanRows_app|].
  destruct (scanRows_spec rows1 i st) as (entries & E & _). now rewrite E.
Qed.

Lemma scanRows_levels rows i st :
  exists entries,
    scanRows rows i st
    = (Return tt,
       mkStore (elements st ++ flat_map rowRecords rows) (logged st ++ entries))
    /\ length entries = length rows
    /\ Forall (fun entry => lvl entry = DEBUG \/ lvl entry = WARN) entries.
Proof.
  revert i st. induction rows as [|row rows IH]; intros i st.
  - exists []. cbn. rewrite !app_nil_r. destruct st; auto.
  - destruct (scanRow_entry row i st) as (entry & E & L).
    destruct (IH (S i) (mkStore (elements st ++ rowRecords row) (logged st ++ [entry])))
      as (entries & E' & Hlen & Hlvl).
    exists (entry :: entries). split; [|split].
    + cbn [scanRows]. run. rewrite E, E'. cbn [elements logged flat_map].
      now rewrite <- !app_assoc.
    + cbn [length]. now rewrite Hlen.
    + now constructor.
Qed.

(** X4. The scan only adds: what [config] and the log held before stays
    in front, one entry is logged per row, at the level DEBUG or WARN, and
    the records pushed are as many as there are fully valid rows. *)
Theorem scan_only_adds (rows : list Row) (i : nat) (st : store) :
  exists records entries,
    scanRows rows i st
    = (Return tt, mkStore (elements st ++ records) (logged st ++ entries))
    /\ length entries = length rows
    /\ Forall (fun entry => lvl entry = DEBUG \/ lvl entry = WARN) entries
    /\ length records = length (filter fullyValid rows).
Proof.
  destruct (scanRows_levels rows i st) as (entries & E & Hlen & Hlvl).
  exists (flat_map rowRecords rows), entries.
  split; [exact E|]. split; [exact Hlen|]. split; [exact Hlvl|].
  symmetry. eapply Forall2_length, scanned_records.
Qed.

Lemma scanRows_entry_at before row after st entry :
  (forall st1, logged (snd (scanRow row (length before) st1)) = logged st1 ++ [entry]) ->
  logged (snd (scanRows (before ++ row :: after) 0 st))
    !! (length (logged st) + length before)%nat
  = Some entry.
Proof.
  intros Hrow. rewrite scanRows_app. cbn [Nat.add].
  destruct (scanRows_spec before 0 st) as (eb & Eb & Lb). rewrite Eb. cbn [snd].
  cbn [scanRows]. run.
  set (st1 := mkStore (elements st ++ flat_map rowRecords before) (logged st ++ eb)).
  specialize (Hrow st1).
  destruct (scanRow_spec row (length before) st1) as (entry' & E).
  rewrite E in Hrow |- *. cbn [snd logged] in Hrow.
  apply app_inj_tail in Hrow as [_ ->].
  match goal with |- context [scanRows after ?j ?s] =>
    destruct (scanRows_spec after j s) as (ea & Ea & _); rewrite Ea end.
  cbn [snd logged]. subst st1. cbn [logged].
  rewrite <- (app_assoc _ [entry] ea). cbn [app].
  replace (length (logged st) + length before)%nat with (length (logged st ++ eb))
    by (rewrite length_app; lia).
  apply list_lookup_middle. reflexivity.
Qed.

(** X5. The diagnostic of a row names its row in the sheet: the entry
    logged for the row at index [i] of the rows is the [i]-th entry the
    scan adds, and it carries the number [i + 3] when the row is skipped,
    with the truth values of the three cells for a missing cell and with
    the name and the message of the parse error for an unparsable URL. For
    a row that is kept the entry quotes the name as the cell has it, not
    trimmed. *)
Theorem diagnostics_name_the_sheet_row (before after : list Row) (row : Row)
    (st : store) :
  (truthy (row !! 0%nat) = false \/ truthy (row !! 2%nat) = false
   \/ truthy (row !! 12%nat) = false ->
   logged (snd (scanRows (before ++ row :: after) 0 st))
     !! (length (logged st) + length before)%nat
   = Some (mkLog DEBUG
             (str "Skipping row " ++ numberToString (length before + 3)
              ++ str ": missing required fields (name: "
              ++ booleanToString (truthy (row !! 0%nat))
              ++ str ", sheetUrl: " ++ booleanToString (truthy (row !! 2%nat))
              ++ str ", webhookUrl: " ++ booleanToString (truthy (row !! 12%nat))
              ++ str ")") None))
  /\ (truthy (row !! 0%nat) = true -> truthy (row !! 2%nat) = true ->
      truthy (row !! 12%nat) = true ->
      (forall e,
         parseSheetIdFromUrl (row !! 2%nat) = Throw e ->
         logged (snd (scanRows (before ++ row :: after) 0 st))
           !! (length (logged st) + length before)%nat
         = Some (mkLog WARN
                   (str "Skipping row " ++ numberToString (length before + 3)
                    ++ str " (" ++ toString (row !! 0%nat) ++ str "): "
                    ++ message e) None))
      /\ (forall id,
            parseSheetIdFromUrl (row !! 2%nat) = Return id ->
            logged (snd (scanRows (before ++ row :: after) 0 st))
              !! (length (logged st) + length before)%nat
            = Some (mkLog DEBUG
                      (str "Added configuration for: " ++ toString (row !! 0%nat))
                      None))).
Proof.
  split; [|intros H0 H2 H12; split].
  - intros Hm. apply scanRows_entry_at. intros st1.
    now rewrite (scanRow_missing row _ st1 Hm).
  - intros e Hp. apply scanRows_entry_at. intros st1.
    now rewrite (scanRow_malformed row _ st1 e H0 H2 H12 Hp).
  - intros id Hp. apply scanRows_entry_at. intros st1.
    now rewrite (scanRow_valid row _ st1 id H0 H2 H12 Hp).
Qed.

Lemma diagnostics_name_the_sheet_row_witness :
  logged (snd (scanRows ([saraianRow; blankNameRow] ++ shortRow :: [kelticRow]) 0
                 emptyStore)) !! 2%nat
  = Some (mkLog DEBUG
            (str "Skipping row 5: missing required fields (name: true, sheetUrl: true, webhookUrl: false)")
            None).
Proof.
  apply (proj1 (diagnostics_name_the_sheet_row [saraianRow; blankNameRow] [kelticRow]
                  shortRow emptyStore)).
  right. right. reflexivity.
Defined.

(** ** validateConfig: what it leaves behind and what it looks at *)

Section ValidationMore.
Variable urlParses : jsstring -> bool.

Lemma validateConfig_store st :
  validateConfig urlParses TheArray st
  = match validation urlParses (elements st) with
    | Return _ =>
        (Return tt,
         mkStore (elements st)
           (logged st ++
            [mkLog INFO (str "Configuration validation passed for "
                         ++ numberToString (length (elements st)) ++ str " sheets")
               None]))
    | Throw e => (Throw e, st)
    end.
Proof.
  unfold validateConfig, forEach, validation. run.
  destruct (elements st) as [|o l] eqn:E; [reflexivity|].
  cbn [length Nat.eqb].
  pose proof (forEachFrom_spec urlParses (o :: l) [] st E) as H.
  rewrite <- E in H at 1. cbn [length] in H. rewrite H.
  destruct (firstFailure urlParses 0 (o :: l)); [reflexivity|].
  now rewrite E.
Qed.

Lemma validation_accepts l :
  validation urlParses l = Return tt
  <-> l <> [] /\ Forall (fun o => firstViolation urlParses o = None) l.
Proof.
  unfold validation. destruct l as [|o l].
  - split; [discriminate | intros [H _]; congruence].
  - rewrite <- firstFailure_None with (index := 0%nat).
    destruct (firstFailure urlParses 0 (o :: l)).
    + split; [discriminate | intros [_ H]; discriminate].
    + split; [intros _; split; [discriminate|reflexivity] | reflexivity].
Qed.

Lemma validateConfig_result l log :
  fst (validateConfig urlParses TheArray (mkStore l log)) = validation urlParses l.
Proof.
  rewrite validateConfig_store. cbn [elements].
  now destruct (validation urlParses l) as [[]|e].
Qed.

Lemma firstViolation_sameButSheetName o o' :
  sameButSheetName o o' ->
  firstViolation urlParses o = firstViolation urlParses o'
  /\ forall index v,
       firstViolation urlParses o = Some v ->
       violationError index o v = violationError index o' v.
Proof.
  intros (E1 & E2 & E3 & E4 & E5). split.
  - unfold firstViolation. now rewrite E1, E2, E3, E4, E5.
  - intros index v. unfold firstViolation.
    repeat match goal with
           | |- (if ?b then _ else _) = _ -> _ => destruct b
           end;
      intros [= <-]; cbn [violationError]; try reflexivity.
    + now rewrite E3.
    + change (property o "currentSuppliesCell") with (currentSuppliesCell o).
      change (property o' "currentSuppliesCell") with (currentSuppliesCell o').
      now rewrite E4.
    + change (property o "dailyConsumptionCell") with (dailyConsumptionCell o).
      change (property o' "dailyConsumptionCell") with (dailyConsumptionCell o').
      now rewrite E5.
Qed.

Lemma firstFailure_sameButSheetName l l' :
  Forall2 sameButSheetName l l' ->
  forall index, firstFailure urlParses index l = firstFailure urlParses index l'.
Proof.
  induction 1 as [|o o' l l' H _ IH]; intros index; [reflexivity|].
  cbn [firstFailure].
  destruct (firstViolation_sameButSheetName o o' H) as [E1 E2]. rewrite <- E1.
  destruct (firstViolation urlParses o) as [v|] eqn:Ev; [|apply IH].
  now rewrite (E2 index v eq_refl).
Qed.

(** X6. [validateConfig] never looks at the sheetName of a record: on two
    arrays whose records differ in their sheetName at most it returns in
    the same cases and throws the same error. *)
Theorem validateConfig_ignores_sheetName (l l' : list SheetConfig)
    (log log' : list LogEntry) :
  Forall2 sameButSheetName l l' ->
  fst (validateConfig urlParses TheArray (mkStore l log))
  = fst (validateConfig urlParses TheArray (mkStore l' log')).
Proof.
  intros H. rewrite !validateConfig_result. unfold validation.
  pose proof (firstFailure_sameButSheetName l l' H 0%nat) as E.
  destruct H; [reflexivity|]. now rewrite E.
Qed.

(** X7. Whether [validateConfig] accepts does not depend on the order of
    the records, and it accepts two non-empty arrays put end to end
    exactly when it accepts each of them. *)
Theorem validateConfig_acceptance_composes (l1 l2 : list SheetConfig)
    (log : list LogEntry) :
  (l1 ≡ₚ l2 ->
   fst (validateConfig urlParses TheArray (mkStore l1 log)) = Return tt ->
   fst (validateConfig urlParses TheArray (mkStore l2 log)) = Return tt)
  /\ (l1 <> [] -> l2 <> [] ->
      (fst (validateConfig urlParses TheArray (mkStore (l1 ++ l2) log)) = Return tt
       <-> fst (validateConfig urlParses TheArray (mkStore l1 log)) = Return tt
           /\ fst (validateConfig urlParses TheArray (mkStore l2 log)) = Return tt)).
Proof.
  rewrite !validateConfig_result, !validation_accepts. split.
  - intros HP [Hne HF]. split.
    + intros ->. apply Permutation_nil_r in HP. congruence.
    + now rewrite <- HP.
  - intros H1 H2. rewrite Forall_app. split.
    + intros [_ [F1 F2]]. auto.
    + intros [[_ F1] [_ F2]]. split; [|auto].
      destruct l1; [congruence|discriminate].
Qed.

(** X8. [validateConfig] leaves a trace only when it accepts: then it
    logs one INFO line that gives the number of records, and when it
    throws the store is as it was, log included. *)
Theorem validateConfig_logs_on_success (config : argument) (st : store) :
  (fst (validateConfig urlParses config st) = Return tt ->
   snd (validateConfig urlParses config st)
   = mkStore (elements st)
       (logged st ++
        [mkLog INFO (str "Configuration validation passed for "
                     ++ numberToString (length (elements st)) ++ str " sheets")
           None]))
  /\ (forall e,
        fst (validateConfig urlParses config st) = Throw e ->
        snd (validateConfig urlParses config st) = st).
Proof.
  destruct config; [|split; [discriminate | reflexivity]].
  rewrite validateConfig_store.
  destruct (validation urlParses (elements st)) as [[]|e]; split;
    try discriminate; reflexivity.
Qed.
End ValidationMore.

Lemma validateConfig_ignores_sheetName_witness :
  fst (validateConfig demoUrlOk TheArray (mkStore (demoConfig ++ [brokenRecord]) []))
  = fst (validateConfig demoUrlOk TheArray
           (mkStore
              (map (fun o => {| name := name o;
                                sheetId := sheetId o;
                                sheetName := None;
                                webhookUrl := webhookUrl o;
                                currentSuppliesCell := currentSuppliesCell o;
                                dailyConsumptionCell := dailyConsumptionCell o |})
                 (demoConfig ++ [brokenRecord])) [])).
Proof.
  apply validateConfig_ignores_sheetName.
  repeat (constructor; [repeat split|]). constructor.
Defined.

Lemma validateConfig_acceptance_composes_witness :
  fst (validateConfig demoUrlOk TheArray (mkStore (rev demoConfig) [])) = Return tt.
Proof.
  apply (proj1 (validateConfig_acceptance_composes demoUrlOk demoConfig
                  (rev demoConfig) [])).
  - apply Permutation_rev.
  - reflexivity.
Defined.

Lemma validateConfig_logs_on_success_witness :
  snd (validateConfig demoUrlOk TheArray (mkStore (brokenRecord :: demoConfig) []))
  = mkStore (brokenRecord :: demoConfig) [].
Proof.
  apply (proj2 (validateConfig_logs_on_success demoUrlOk TheArray
                  (mkStore (brokenRecord :: demoConfig) []))
           (missingFieldError 0 "sheetId")).
  reflexivity.
Defined.

(** ** The records the scan pushes *)

Lemma trimStart_head s c t : trimStart s = c :: t -> isWhiteSpace c = false.
Proof.
  induction s as [|x s IH]; cbn [trimStart]; [discriminate|].
  destruct (isWhiteSpace x) eqn:E; [exact IH|]. now intros [= <- _].
Qed.

Lemma trimStart_snoc l c :
  isWhiteSpace c = false -> trimStart (l ++ [c]) = trimStart l ++ [c].
Proof.
  intros Hc. induction l as [|x l IH]; cbn [app trimStart]; [now rewrite Hc|].
  now destruct (isWhiteSpace x).
Qed.

Lemma trimEnd_cons c s :
  isWhiteSpace c = false -> trimEnd (c :: s) = c :: trimEnd s.
Proof.
  intros Hc. unfold trimEnd. cbn [rev].
  now rewrite trimStart_snoc, rev_app_distr by exact Hc.
Qed.

Lemma last_rev_head (y : jsstring) : last (rev y) = head y.
Proof. destruct y as [|a y]; [reflexivity|]. cbn [rev head]. apply last_snoc. Qed.

Lemma trim_noOuterWhiteSpace s : noOuterWhiteSpace (trim s).
Proof.
  unfold noOuterWhiteSpace, trim. intros c [H|H].
  - destruct (trimStart s) as [|x t] eqn:E; [discriminate|].
    pose proof (trimStart_head _ _ _ E) as Hx.
    rewrite (trimEnd_cons x t Hx) in H. now injection H as <-.
  - unfold trimEnd in H. rewrite last_rev_head in H.
    destruct (trimStart (rev (trimStart s))) as [|x t] eqn:E; [discriminate|].
    injection H as <-. exact (trimStart_head _ _ _ E).
Qed.

Lemma parseSheetIdFromUrl_result v id :
  parseSheetIdFromUrl v = Return id -> id <> [] /\ Forall idChar id.
Proof.
  destruct v as [u|]; [|discriminate]. rewrite parseSheetIdFromUrl_firstId.
  destruct (firstId u) as [id'|] eqn:E; [|discriminate]. intros [= ->].
  apply firstId_Some in E as (pre & c & rest & _ & Hc & -> & _).
  split; [discriminate|].
  apply (Forall_class idChar idClass); [apply idClass_spec|].
  constructor; [exact Hc | apply takeRun_Forall].
Qed.

Lemma rowRecords_shape row c :
  c ∈ rowRecords row ->
  exists id,
    parseSheetIdFromUrl (row !! 2%nat) = Return id
    /\ c = {| name := Some (trim (toString (row !! 0%nat)));
              sheetId := Some id;
              sheetName := Some (str "Sheet1");
              webhookUrl := Some (trim (toString (row !! 12%nat)));
              currentSuppliesCell := Some (str "C9");
              dailyConsumptionCell := Some (str "C11") |}.
Proof.
  unfold rowRecords. destruct (fullyValidb row); [|now intros H; inversion H].
  destruct (parseSheetIdFromUrl (row !! 2%nat)) as [id|e];
    [|now intros H; inversion H].
  intros H. apply list_elem_of_singleton in H. eauto.
Qed.

(** X9. Whatever the rows, every record the scan pushes has a non-empty
    sheetId made of characters of [[A-Za-z0-9-_]] only, a name and a
    webhookUrl without white space at either end, the sheetName Sheet1,
    and the cells C9 and C11, which pass [isValidCellAddress]. *)
Theorem scanned_record_invariant (rows : list Row) (i : nat) (log : list LogEntry) :
  Forall (fun c =>
            exists n id w,
              name c = Some n /\ noOuterWhiteSpace n
              /\ sheetId c = Some id /\ id <> [] /\ Forall idChar id
              /\ webhookUrl c = Some w /\ noOuterWhiteSpace w
              /\ sheetName c = Some (str "Sheet1")
              /\ currentSuppliesCell c = Some (str "C9")
              /\ dailyConsumptionCell c = Some (str "C11")
              /\ isValidCellAddress (currentSuppliesCell c) = true
              /\ isValidCellAddress (dailyConsumptionCell c) = true)
    (elements (snd (scanRows rows i (mkStore [] log)))).
Proof.
  destruct (scanRows_spec rows i (mkStore [] log)) as (entries & E & _).
  rewrite E. cbn [snd elements app]. apply Forall_forall. intros c Hc.
  apply list_elem_of_In, in_flat_map in Hc as (row & _ & Hc).
  apply list_elem_of_In, rowRecords_shape in Hc as (id & Hp & ->).
  apply parseSheetIdFromUrl_result in Hp as [Hne Hid].
  eexists _, id, _. cbn [name sheetId webhookUrl sheetName currentSuppliesCell
                         dailyConsumptionCell].
  repeat (split; [first [reflexivity | apply trim_noOuterWhiteSpace
                         | exact Hne | exact Hid]|]).
  reflexivity.
Qed.

(** ** Discovery followed by validation *)

Section DiscoveryThenValidation.
Variable urlParses : jsstring -> bool.

Lemma rowRecords_violation row c :
  c ∈ rowRecords row ->
  firstViolation urlParses c
  = if negb (truthy (Some (trim (toString (row !! 0%nat)))))
    then Some (MissingField "name")
    else if negb (truthy (Some (trim (toString (row !! 12%nat)))))
         then Some (MissingField "webhookUrl")
         else if negb (urlParses (trim (toString (row !! 12%nat))))
              then Some InvalidEndpoint
              else None.
Proof.
  intros H. apply rowRecords_shape in H as (id & Hp & ->).
  apply parseSheetIdFromUrl_result in Hp as [Hne _].
  unfold firstViolation.
  cbn [name sheetId webhookUrl currentSuppliesCell dailyConsumptionCell toString].
  destruct (negb (truthy (Some (trim (toString (row !! 0%nat)))))); [reflexivity|].
  destruct id as [|x id]; [congruence|]. cbn [truthy negb].
  destruct (negb (truthy (Some (trim (toString (row !! 12%nat)))))); [reflexivity|].
  destruct (negb (urlParses (trim (toString (row !! 12%nat))))); reflexivity.
Qed.

Lemma firstFailure_of_scanned rows index e :
  firstFailure urlParses index (flat_map rowRecords rows) = Some e ->
  exists k,
    (index <= k < index + length (flat_map rowRecords rows))%nat
    /\ (e = missingFieldError k "name" \/ e = missingFieldError k "webhookUrl"
        \/ exists w, e = invalidWebhookError k (Some w)).
Proof.
  assert (G : forall l, Forall (fun c => exists row, c ∈ rowRecords row) l ->
              forall index, firstFailure urlParses index l = Some e ->
              exists k, (index <= k < index + length l)%nat
                /\ (e = missingFieldError k "name"
                    \/ e = missingFieldError k "webhookUrl"
                    \/ exists w, e = invalidWebhookError k (Some w))).
  { induction 1 as [|c l [row Hc] _ IH]; intros ix; cbn [firstFailure length];
      [discriminate|].
    rewrite (rowRecords_violation row c Hc).
    apply rowRecords_shape in Hc as (id & _ & ->).
    repeat match goal with
           | |- match (if ?b then _ else _) with _ => _ end = _ -> _ => destruct b
           end.
    1-3: intros [= <-]; exists ix; split; [lia|]; cbn [violationError webhookUrl]; eauto.
    intros H. destruct (IH _ H) as (k & Hk & Hcase). exists k. split; [lia|exact Hcase]. }
  apply G. apply Forall_forall. intros c Hc.
  apply list_elem_of_In, in_flat_map in Hc as (row & _ & Hc).
  exists row. now apply list_elem_of_In.
Qed.

(** X10. The records of discovery can fail validation in three ways only:
    a name that trims to the empty string, an endpoint that does, or an
    endpoint that is no URL. The validator never finds their sheetId
    missing nor their cell addresses wrong. *)
Theorem discovered_records_fail_on_name_or_endpoint (rows : list Row) (st : store) :
  fst (discover (Some rows) st) = Return tt ->
  fst (validateConfig urlParses TheArray (snd (discover (Some rows) st))) = Return tt
  \/ exists index,
       (index < length (elements (snd (discover (Some rows) st))))%nat
       /\ (fst (validateConfig urlParses TheArray (snd (discover (Some rows) st)))
           = Throw (missingFieldError index "name")
           \/ fst (validateConfig urlParses TheArray (snd (discover (Some rows) st)))
              = Throw (missingFieldError index "webhookUrl")
           \/ exists w,
                fst (validateConfig urlParses TheArray (snd (discover (Some rows) st)))
                = Throw (invalidWebhookError index (Some w))).
Proof.
  destruct rows as [|row rows]; [discriminate|].
  destruct (discover_rows row rows st) as (entries & E & _). rewrite E.
  cbn [fst snd elements].
  destruct (flat_map rowRecords (row :: rows)) as [|c l] eqn:F; [discriminate|].
  intros _. rewrite validateConfig_result. unfold validation.
  destruct (firstFailure urlParses 0 (c :: l)) as [e|] eqn:FF; [right | now left].
  rewrite <- F in FF. apply firstFailure_of_scanned in FF as (k & Hk & Hcase).
  rewrite F in Hk. exists k. split; [lia|].
  destruct Hcase as [-> | [-> | [w ->]]]; eauto.
Qed.

Lemma kept_rows_pass rows :
  Forall (fun row => fullyValid row -> keptRowPasses urlParses row) rows ->
  Forall (fun c => firstViolation urlParses c = None) (flat_map rowRecords rows).
Proof.
  intros H. apply Forall_forall. intros c Hc.
  apply list_elem_of_In, in_flat_map in Hc as (row & Hrow & Hc).
  apply list_elem_of_In in Hrow, Hc.
  rewrite (rowRecords_violation row c Hc).
  assert (V : fullyValid row).
  { apply fullyValidb_spec. unfold rowRecords in Hc.
    destruct (fullyValidb row); [reflexivity | inversion Hc]. }
  rewrite Forall_forall in H.
  destruct (H row Hrow V) as (n & w & -> & Hn & -> & Hw & Hu).
  cbn [toString]. rewrite Hu.
  destruct (trim n); [congruence|]. destruct (trim w); [congruence|]. reflexivity.
Qed.

(** X11. The index in a validation error counts records, not rows of the
    sheet. When the rows kept before a row all pass the validator and
    that row is fully valid with a name of white space only, [loadConfig]
    fails for the missing name of the configuration whose index is the
    number of fully valid rows before it, however many rows were skipped
    in between. *)
Theorem validation_error_counts_kept_rows (env : value) (before after : list Row)
    (row : Row) (n : jsstring) (st : store) :
  truthy env = true ->
  Forall (fun r => fullyValid r -> keptRowPasses urlParses r) before ->
  fullyValid row -> row !! 0%nat = Some n -> trim n = [] ->
  fst (loadConfig urlParses env (Return tt)
         (fun _ _ _ => Return (Some (before ++ row :: after))) st)
  = Throw (loadingFailed
             (missingFieldError (length (filter fullyValid before)) "name")).
Proof.
  intros Henv Hbefore V Hn Ht. rewrite loadConfig_outcome. unfold tryOutcome.
  rewrite Henv. cbn [negb].
  destruct (rowRecords_valid row V) as (c & Hc & _).
  assert (Hv : firstViolation urlParses c = Some (MissingField "name")).
  { rewrite (rowRecords_violation row c) by (rewrite Hc; apply list_elem_of_here).
    now rewrite Hn; cbn [toString]; rewrite Ht. }
  assert (F : flat_map rowRecords (before ++ row :: after)
              = flat_map rowRecords before ++ c :: flat_map rowRecords after).
  { rewrite flat_map_app. cbn [flat_map]. now rewrite Hc. }
  assert (FF : firstFailure urlParses 0 (flat_map rowRecords (before ++ row :: after))
               = Some (missingFieldError (length (filter fullyValid before)) "name")).
  { rewrite F, (firstFailure_first urlParses _ c _ _ 0 (kept_rows_pass before Hbefore) Hv).
    cbn [Nat.add violationError]. do 2 f_equal.
    symmetry. eapply Forall2_length, scanned_records. }
  destruct (before ++ row :: after) as [|r rs] eqn:R; [now destruct before|].
  destruct (flat_map rowRecords (r :: rs)) as [|c' l'] eqn:F';
    [now destruct (flat_map rowRecords before)|].
  unfold validation. now rewrite FF.
Qed.

End DiscoveryThenValidation.

Lemma discovered_records_fail_on_name_or_endpoint_witness :
  fst (discover (Some [kelticRow; blankNameRow]) emptyStore) = Return tt
  /\ (fst (validateConfig demoUrlOk TheArray
             (snd (discover (Some [kelticRow; blankNameRow]) emptyStore)))
      = Return tt
      \/ exists index,
           (index < length (elements (snd (discover (Some [kelticRow; blankNameRow])
                                             emptyStore))))%nat
           /\ (fst (validateConfig demoUrlOk TheArray
                      (snd (discover (Some [kelticRow; blankNameRow]) emptyStore)))
               = Throw (missingFieldError index "name")
               \/ fst (validateConfig demoUrlOk TheArray
                         (snd (discover (Some [kelticRow; blankNameRow]) emptyStore)))
                  = Throw (missingFieldError index "webhookUrl")
               \/ exists w,
                    fst (validateConfig demoUrlOk TheArray
                           (snd (discover (Some [kelticRow; blankNameRow]) emptyStore)))
                    = Throw (invalidWebhookError index (Some w)))).
Proof.
  split; [reflexivity|].
  apply (discovered_records_fail_on_name_or_endpoint demoUrlOk
           [kelticRow; blankNameRow] emptyStore).
  reflexivity.
Defined.

Lemma validation_error_counts_kept_rows_witness :
  fst (loadConfig demoUrlOk (Some (str "db")) (Return tt)
         (fun _ _ _ =>
            Return (Some ([shortRow; saraianRow; malformedRow] ++ blankNameRow
                          :: [kelticRow]))) emptyStore)
  = Throw (mkError (str "Configuration loading failed: Sheet configuration 1 is missing required field: name")).
Proof.
  apply (validation_error_counts_kept_rows demoUrlOk (Some (str "db"))
           [shortRow; saraianRow; malformedRow] [kelticRow] blankNameRow (str " ")
           emptyStore).
  - reflexivity.
  - repeat constructor; intros V.
    + apply fullyValidb_spec in V. vm_compute in V. discriminate V.
    + eexists _, _. repeat split; vm_compute; discriminate.
    + apply fullyValidb_spec in V. vm_compute in V. discriminate V.
  - apply fullyValidb_spec. vm_compute. reflexivity.
  - reflexivity.
  - reflexivity.
Defined.

(** ** loadConfig: what it returns, where it stops, what it logs *)

Section LoadingMore.
Variable urlParses : jsstring -> bool.
Variable env : value.
Variable init : result unit.
Variable getRange : jsstring -> jsstring -> jsstring -> result (option (list Row)).

Lemma firstViolation_passes o :
  firstViolation urlParses o = None ->
  truthy (name o) = true /\ truthy (sheetId o) = true /\ truthy (webhookUrl o) = true
  /\ urlParses (toString (webhookUrl o)) = true
  /\ isValidCellAddress (currentSuppliesCell o) = true
  /\ isValidCellAddress (dailyConsumptionCell o) = true.
Proof.
  unfold firstViolation.
  destruct (truthy (name o)); cbn [negb]; [|discriminate].
  destruct (truthy (sheetId o)); cbn [negb]; [|discriminate].
  destruct (truthy (webhookUrl o)); cbn [negb]; [|discriminate].
  destruct (truthy (currentSuppliesCell o)); cbn [negb]; [|discriminate].
  destruct (truthy (dailyConsumptionCell o)); cbn [negb]; [|discriminate].
  destruct (urlParses (toString (webhookUrl o))); cbn [negb]; [|discriminate].
  destruct (isValidCellAddress (currentSuppliesCell o)); cbn [negb]; [|discriminate].
  destruct (isValidCellAddress (dailyConsumptionCell o)); cbn [negb]; [|discriminate].
  intros _. repeat split.
Qed.

(** X12. What [loadConfig] returns has passed every gate: the variable
    DATABASE_SHEET_ID was set, the service delivered rows, the array is
    not empty, it holds the records of the fully valid rows in their
    order and of no other row, and every record has a non-empty name and a
    non-empty endpoint that parses as a URL. *)
Theorem loadConfig_returns_validated (st : store) (config : list SheetConfig) :
  fst (loadConfig urlParses env init getRange st) = Return config ->
  truthy env = true /\ init = Return tt
  /\ exists rows,
       getRange (toString env) (str "A3:M") (str "Commander Database")
       = Return (Some rows)
       /\ config <> []
       /\ Forall2 recordOf (filter fullyValid rows) config
       /\ Forall (fun c =>
                    exists n w,
                      name c = Some n /\ n <> [] /\ webhookUrl c = Some w
                      /\ w <> [] /\ urlParses w = true) config.
Proof.
  rewrite loadConfig_outcome. unfold tryOutcome.
  destruct (truthy env); cbn [negb]; [|discriminate].
  destruct init as [[]|e]; [|discriminate].
  destruct (getRange _ _ _) as [[[|row rows]|]|e]; try discriminate.
  pose proof (scanned_records (row :: rows)) as HF.
  destruct (flat_map rowRecords (row :: rows)) as [|c l] eqn:F; [discriminate|].
  destruct (validation urlParses (c :: l)) as [[]|e] eqn:V; [|discriminate].
  intros [= <-]. split; [reflexivity|]. split; [reflexivity|].
  exists (row :: rows). split; [reflexivity|]. split; [discriminate|].
  split; [exact HF|].
  apply validation_accepts in V as [_ V].
  eapply Forall_impl; [exact V|]. intros o Ho.
  apply firstViolation_passes in Ho as (Hn & _ & Hw & Hu & _).
  apply truthy_Some in Hn as (x & n & En). apply truthy_Some in Hw as (y & w & Ew).
  exists (x :: n), (y :: w). rewrite Ew in Hu. cbn [toString] in Hu.
  repeat split; auto; discriminate.
Qed.

(** X13. [loadConfig] stops at the first thing that is wrong before it
    has any rows. Without DATABASE_SHEET_ID it logs the error and nothing
    else, whatever the service would do. With it, a rejection of
    [initialize] or of [getRange] comes after the line that says loading
    has begun, and reaches the caller wrapped; [getRange] plays no part
    when [initialize] has failed. *)
Theorem loadConfig_stops_early (st : store) :
  (truthy env = false ->
   loadConfig urlParses env init getRange st
   = (Throw (loadingFailed envMissingError),
      mkStore (elements st)
        (logged st ++
         [mkLog ERROR (str "Failed to load configuration:") (Some envMissingError)])))
  /\ (forall e,
        truthy env = true ->
        init = Throw e
        \/ (init = Return tt
            /\ getRange (toString env) (str "A3:M") (str "Commander Database")
               = Throw e) ->
        loadConfig urlParses env init getRange st
        = (Throw (loadingFailed e),
           mkStore (elements st)
             (logged st ++
              [mkLog INFO (str "Loading configuration from database sheet: "
                           ++ toString env) None;
               mkLog ERROR (str "Failed to load configuration:") (Some e)]))).
Proof.
  split.
  - intros Henv. unfold loadConfig, loadConfigTry. run. now rewrite Henv.
  - intros e Henv H. unfold loadConfig, loadConfigTry. run. rewrite Henv.
    cbn [negb]. destruct H as [-> | [-> ->]]; cbv beta iota; cbn [elements logged];
      now rewrite <- app_assoc.
Qed.

Lemma discover_levels row rows s :
  exists entries,
    discover (Some (row :: rows)) s
    = (match flat_map rowRecords (row :: rows) with
       | [] => Throw noValidConfigurationsError
       | _ :: _ => Return tt
       end,
       mkStore (flat_map rowRecords (row :: rows)) (logged s ++ entries))
    /\ length entries = S (length rows)
    /\ Forall (fun entry => lvl entry = DEBUG \/ lvl entry = WARN) entries.
Proof.
  destruct (scanRows_levels (row :: rows) 0 (mkStore [] (logged s)))
    as (entries & E & Hlen & Hlvl).
  exists entries. split; [|split; [exact Hlen|exact Hlvl]].
  unfold discover. run. rewrite E. cbn [elements logged app].
  now destruct (flat_map rowRecords (row :: rows)).
Qed.

(** X14. The log of a run tells how it ended. When [loadConfig] returns,
    it has logged the line that loading has begun, then one DEBUG or WARN
    entry for each row, then the two INFO lines that give the number of
    records returned, and no ERROR entry. When it throws, the last entry
    is the ERROR entry that carries the error before wrapping. *)
Theorem loadConfig_log (st : store) :
  (forall config,
     fst (loadConfig urlParses env init getRange st) = Return config ->
     exists rows entries,
       getRange (toString env) (str "A3:M") (str "Commander Database")
       = Return (Some rows)
       /\ logged (snd (loadConfig urlParses env init getRange st))
          = logged st
            ++ [mkLog INFO (str "Loading configuration from database sheet: "
                            ++ toString env) None]
            ++ entries ++ successLines (length config)
       /\ length entries = length rows
       /\ Forall (fun entry => lvl entry = DEBUG \/ lvl entry = WARN) entries)
  /\ (forall e,
        fst (loadConfig urlParses env init getRange st) = Throw e ->
        exists cause,
          e = loadingFailed cause
          /\ last (logged (snd (loadConfig urlParses env init getRange st)))
             = Some (mkLog ERROR (str "Failed to load configuration:") (Some cause))).
Proof.
  split.
  - intros config. unfold loadConfig, loadConfigTry. run.
    destruct (negb (truthy env)); [discriminate|].
    destruct init as [[]|e]; [|discriminate].
    destruct (getRange _ _ _) as [[[|row rows]|]|e]; try discriminate.
    match goal with |- context [discover _ ?s] =>
      destruct (discover_levels row rows s) as (entries & E & Hlen & Hlvl);
      rewrite E end.
    destruct (flat_map rowRecords (row :: rows)) as [|c l] eqn:F; [discriminate|].
    rewrite validateConfig_store. cbn [elements logged].
    destruct (validation urlParses (c :: l)) as [[]|e]; [|discriminate].
    cbn [fst snd elements logged]. intros [= <-].
    exists (row :: rows), entries. split; [reflexivity|].
    split; [|split; [exact Hlen|exact Hlvl]].
    unfold successLines. now rewrite <- !app_assoc.
  - intros e. unfold loadConfig. run.
    destruct (loadConfigTry urlParses env init getRange st) as [[config|cause] st'];
      [discriminate|].
    cbn [fst snd logged]. intros [= <-]. exists cause. split; [reflexivity|].
    apply last_snoc.
Qed.
End LoadingMore.

Lemma loadConfig_returns_validated_witness :
  exists rows,
    Return (Some demoRows) = Return (Some rows)
    /\ demoConfig <> []
    /\ Forall2 recordOf (filter fullyValid rows) demoConfig
    /\ Forall (fun c =>
                 exists n w,
                   name c = Some n /\ n <> [] /\ webhookUrl c = Some w
                   /\ w <> [] /\ demoUrlOk w = true) demoConfig.
Proof.
  apply (loadConfig_returns_validated demoUrlOk (Some (str "db")) (Return tt)
           (fun _ _ _ => Return (Some demoRows)) emptyStore demoConfig).
  vm_compute. reflexivity.
Defined.

Lemma loadConfig_stops_early_witness :
  loadConfig demoUrlOk (Some (str "db")) (Return tt)
    (fun _ _ _ => Throw (mkError (str "The caller does not have permission")))
    emptyStore
  = (Throw (mkError (str "Configuration loading failed: The caller does not have permission")),
     mkStore []
       [ mkLog INFO (str "Loading configuration from database sheet: db") None;
         mkLog ERROR (str "Failed to load configuration:")
           (Some (mkError (str "The caller does not have permission"))) ]).
Proof.
  apply (proj2 (loadConfig_stops_early demoUrlOk (Some (str "db")) (Return tt)
                  (fun _ _ _ => Throw (mkError (str "The caller does not have permission")))
                  emptyStore)
           (mkError (str "The caller does not have permission"))).
  - reflexivity.
  - right. split; reflexivity.
Defined.

Lemma loadConfig_log_witness :
  exists cause,
    loadingFailed noValidConfigurationsError = loadingFailed cause
    /\ last (logged (snd (loadConfig demoUrlOk (Some (str "db")) (Return tt)
                            (fun _ _ _ => Return (Some [shortRow; malformedRow]))
                            emptyStore)))
       = Some (mkLog ERROR (str "Failed to load configuration:") (Some cause)).
Proof.
  apply (proj2 (loadConfig_log demoUrlOk (Some (str "db")) (Return tt)
                  (fun _ _ _ => Return (Some [shortRow; malformedRow])) emptyStore)
           (loadingFailed noValidConfigurationsError)).
  vm_compute. reflexivity.
Defined.

(** ** parseSheetIdFromUrl: white space around the URL *)

Lemma whiteSpace_not_idClass c : isWhiteSpace c = true -> in_class idClass c = false.
Proof.
  intros H. destruct (in_class idClass c) eqn:E; [|reflexivity]. exfalso.
  apply idClass_spec in E. revert H.
  unfold idChar, uppercaseLetter, lowercaseLetter, decimalDigit, codeUnit in E.
  cbn in E. unfold isWhiteSpace.
  cbv [in_class whiteSpace existsb fst snd].
  rewrite !orb_true_iff, !andb_true_iff, !N.leb_le. lia.
Qed.

Lemma sheetsSegment_no_whiteSpace :
  Forall (fun c => isWhiteSpace c = false) sheetsSegment.
Proof. repeat constructor. Qed.

Lemma stripPrefix_app_whiteSpace p s post r :
  Forall (fun c => isWhiteSpace c = false) p ->
  Forall (fun c => isWhiteSpace c = true) post ->
  stripPrefix p (s ++ post) = Some r ->
  exists r', stripPrefix p s = Some r' /\ r = r' ++ post.
Proof.
  intros Hp Hpost. revert s. induction Hp as [|x p Hx _ IH]; intros s.
  - cbn. intros [= <-]. eauto.
  - destruct s as [|y s]; cbn [app].
    + destruct Hpost as [|z post Hz _]; cbn; [discriminate|].
      destruct (N.eqb_spec x z) as [->|_]; [congruence|discriminate].
    + cbn [stripPrefix]. destruct (x =? y); [apply IH|discriminate].
Qed.

Lemma takeRun_app_stop c l r :
  match r with [] => True | x :: _ => in_class c x = false end ->
  takeRun c (l ++ r) = takeRun c l.
Proof.
  intros Hr. induction l as [|y l IH]; cbn [app takeRun].
  - destruct r as [|x r]; [reflexivity|]. cbn [takeRun]. now rewrite Hr.
  - now rewrite IH.
Qed.

Lemma idAt_app_whiteSpace s post :
  Forall (fun c => isWhiteSpace c = true) post -> idAt (s ++ post) = idAt s.
Proof.
  intros Hpost.
  assert (Hstop : match post with
                  | [] => True
                  | x :: _ => in_class idClass x = false
                  end).
  { destruct Hpost as [|x post Hx _]; [exact I | now apply whiteSpace_not_idClass]. }
  unfold idAt.
  destruct (stripPrefix sheetsSegment s) as [r'|] eqn:E.
  - apply stripPrefix_spec in E as ->.
    assert (E' : stripPrefix sheetsSegment ((sheetsSegment ++ r') ++ post)
                 = Some (r' ++ post)).
    { apply stripPrefix_spec. now rewrite app_assoc. }
    rewrite E'. destruct r' as [|x r']; cbn [app].
    + destruct post as [|z post]; [reflexivity|]. now rewrite Hstop.
    + destruct (in_class idClass x); [|reflexivity].
      now rewrite (takeRun_app_stop idClass r' post Hstop).
  - destruct (stripPrefix sheetsSegment (s ++ post)) as [r|] eqn:E'; [|reflexivity].
    apply (stripPrefix_app_whiteSpace _ _ _ _ sheetsSegment_no_whiteSpace Hpost)
      in E' as (r' & E' & _).
    congruence.
Qed.

Lemma firstId_app_whiteSpace s post :
  Forall (fun c => isWhiteSpace c = true) post -> firstId (s ++ post) = firstId s.
Proof.
  intros Hpost. induction s as [|a s IH].
  - cbn [app]. induction Hpost as [|x post Hx Hpost IHp]; [reflexivity|].
    cbn [firstId].
    change (idAt (x :: post)) with (idAt ([] ++ x :: post)).
    rewrite (idAt_app_whiteSpace [] (x :: post)) by now constructor.
    exact IHp.
  - cbn [app firstId].
    change (a :: s ++ post) with ((a :: s) ++ post).
    rewrite (idAt_app_whiteSpace (a :: s) post Hpost). now rewrite IH.
Qed.

Lemma firstId_whiteSpace_app pre s :
  Forall (fun c => isWhiteSpace c = true) pre -> firstId (pre ++ s) = firstId s.
Proof.
  induction 1 as [|a pre Ha _ IH]; [reflexivity|].
  cbn [app firstId].
  destruct (idAt (a :: pre ++ s)) as [id|] eqn:E; [|exact IH].
  apply idAt_starts in E as (s' & [= -> _]). discriminate Ha.
Qed.

(** X15. The URL cell is parsed as it is, not trimmed, and it need not
    be: white space before and after a URL changes neither whether an
    identifier is found nor which one; only the message of the error
    quotes the cell with its white space. *)
Theorem parseSheetIdFromUrl_ignores_outer_whiteSpace (pre url post : jsstring) :
  Forall (fun c => isWhiteSpace c = true) pre ->
  Forall (fun c => isWhiteSpace c = true) post ->
  parseSheetIdFromUrl (Some (pre ++ url ++ post))
  = match parseSheetIdFromUrl (Some url) with
    | Return id => Return id
    | Throw _ => Throw (invalidSheetsUrl (pre ++ url ++ post))
    end.
Proof.
  intros Hpre Hpost. rewrite !parseSheetIdFromUrl_firstId.
  rewrite (firstId_whiteSpace_app pre _ Hpre), (firstId_app_whiteSpace url post Hpost).
  now destruct (firstId url).
Qed.

Lemma parseSheetIdFromUrl_ignores_outer_whiteSpace_witness :
  parseSheetIdFromUrl
    (Some (str "  " ++ str "https://docs.google.com/spreadsheets/d/1ZyXwVu" ++ str " "))
  = Return (str "1ZyXwVu").
Proof.
  rewrite (parseSheetIdFromUrl_ignores_outer_whiteSpace (str "  ")
             (str "https://docs.google.com/spreadsheets/d/1ZyXwVu") (str " ")).
  - reflexivity.
  - repeat constructor.
  - repeat constructor.
Defined.

(** ** What trimming removes *)

Lemma trimStart_split s :
  exists pre, s = pre ++ trimStart s /\ Forall (fun c => isWhiteSpace c = true) pre.
Proof.
  induction s as [|x s (pre & E & Hpre)]; [exists []; split; [reflexivity|constructor]|].
  cbn [trimStart]. destruct (isWhiteSpace x) eqn:Hx.
  - exists (x :: pre). split; [cbn [app]; now rewrite <- E | now constructor].
  - exists []. split; [reflexivity | constructor].
Qed.

Lemma trimEnd_split t :
  exists post, t = trimEnd t ++ post /\ Forall (fun c => isWhiteSpace c = true) post.
Proof.
  destruct (trimStart_split (rev t)) as (pre & E & Hpre).
  exists (rev pre). split; [|now apply Forall_rev].
  unfold trimEnd. rewrite <- rev_app_distr, <- E. now rewrite rev_involutive.
Qed.

Lemma trim_trimmedOf s : trimmedOf s (trim s).
Proof.
  destruct (trimStart_split s) as (pre & E & Hpre).
  destruct (trimEnd_split (trimStart s)) as (post & E' & Hpost).
  exists pre, post. split; [|split; [exact Hpre|split; [exact Hpost|]]].
  - unfold trim. now rewrite <- E', <- E.
  - apply trim_noOuterWhiteSpace.
Qed.

(** ** Discovery up to the return of the array *)

(** C2, as the code has it. When the rows are not empty and every row has
    a non-empty name at position 0, a URL at position 2 from which the
    identifier can be extracted and a non-empty endpoint at position 12,
    and moreover the name and the endpoint are more than white space and
    the endpoint without its outer white space parses as a URL,
    [loadConfig] returns an array with one record per row, in the order of
    the rows: the record at index [i] has as its name the cell 0 without
    the white space at its ends, as its sheetId the identifier extracted
    from cell 2, as its webhookUrl the cell 12 without the white space at
    its ends, and Sheet1, C9 and C11 as sheetName, currentSuppliesCell and
    dailyConsumptionCell. *)
Theorem loadConfig_of_complete_rows (urlParses : jsstring -> bool) (env : value)
    (init : result unit)
    (getRange : jsstring -> jsstring -> jsstring -> result (option (list Row)))
    (rows : list Row) (st : store) :
  truthy env = true -> init = Return tt ->
  getRange (toString env) (str "A3:M") (str "Commander Database") = Return (Some rows) ->
  rows <> [] ->
  Forall (fun row => completeRow row /\ keptRowPasses urlParses row) rows ->
  exists config,
    fst (loadConfig urlParses env init getRange st) = Return config
    /\ length config = length rows
    /\ forall i row,
         rows !! i = Some row ->
         exists n u w id tn tw,
           row !! 0%nat = Some n /\ row !! 2%nat = Some u /\ row !! 12%nat = Some w
           /\ parseSheetIdFromUrl (Some u) = Return id
           /\ trimmedOf n tn /\ trimmedOf w tw
           /\ config !! i
              = Some {| name := Some tn;
                        sheetId := Some id;
                        sheetName := Some (str "Sheet1");
                        webhookUrl := Some tw;
                        currentSuppliesCell := Some (str "C9");
                        dailyConsumptionCell := Some (str "C11") |}.
Proof.
  intros Henv Hinit Hrows Hne Hall.
  assert (Hv : Forall fullyValid rows).
  { eapply Forall_impl; [exact Hall|]. intros row [(H0 & H2 & H12) _].
    repeat split; auto using extractable_truthy. }
  assert (Hk : Forall (fun row => fullyValid row -> keptRowPasses urlParses row) rows).
  { eapply Forall_impl; [exact Hall|]. now intros row [_ H] _. }
  pose proof (scanned_records rows) as HF. rewrite (filter_all_valid rows Hv) in HF.
  pose proof (kept_rows_pass urlParses rows Hk) as Hpass.
  destruct rows as [|row rows']; [congruence|].
  assert (Hrec : flat_map rowRecords (row :: rows') <> []).
  { apply flat_map_rowRecords_cons. left. now inversion Hv. }
  rewrite (loadConfig_returns urlParses env init getRange st row rows'
             Henv Hinit Hrows Hrec).
  rewrite (proj2 (validation_accepts urlParses _) (conj Hrec Hpass)).
  exists (flat_map rowRecords (row :: rows')). split; [reflexivity|].
  split; [symmetry; eapply Forall2_length, HF|].
  intros i r Hi.
  destruct (Forall2_lookup_l _ _ _ _ _ HF Hi) as (c & Hc & n & u & w & id & R).
  destruct R as (E0 & E2 & E12 & Hp & ->).
  exists n, u, w, id, (trim n), (trim w).
  repeat (split; [first [assumption | apply trim_trimmedOf]|]). exact Hc.
Qed.

Lemma loadConfig_of_complete_rows_witness :
  Forall (fun row => completeRow row /\ keptRowPasses demoUrlOk row) [saraianRow; paddedRow]
  /\ exists config,
       fst (loadConfig demoUrlOk (Some (str "db")) (Return tt)
              (fun _ _ _ => Return (Some [saraianRow; paddedRow])) emptyStore)
       = Return config
       /\ length config = 2%nat
       /\ config !! 1%nat
          = Some {| name := Some (str "Keltic Raiders");
                    sheetId := Some (str "1ZyXwVu");
                    sheetName := Some (str "Sheet1");
                    webhookUrl := Some (str "https://discord.com/api/webhooks/456/def");
                    currentSuppliesCell := Some (str "C9");
                    dailyConsumptionCell := Some (str "C11") |}.
Proof.
  assert (H : Forall (fun row => completeRow row /\ keptRowPasses demoUrlOk row)
                [saraianRow; paddedRow]).
  { repeat constructor; try (eexists; vm_compute; reflexivity);
      eexists _, _; repeat split; vm_compute; discriminate. }
  split; [exact H|].
  destruct (loadConfig_of_complete_rows demoUrlOk (Some (str "db")) (Return tt)
              (fun _ _ _ => Return (Some [saraianRow; paddedRow]))
              [saraianRow; paddedRow] emptyStore eq_refl eq_refl eq_refl)
    as (config & E & L & _); [discriminate | exact H |].
  exists config. split; [exact E|]. split; [exact L|].
  vm_compute in E. injection E as <-. vm_compute. reflexivity.
Defined.

(** The statement of C2 fails once the array has to be returned: rows
    that have their three cells and a good URL are not enough. With an
    endpoint that is no URL the validator rejects the array, by design,
    and [loadConfig] throws; it also throws on a name of white space
    only. *)
Lemma complete_rows_can_fail_validation :
  Forall completeRow [saraianRow; badEndpointRow]
  /\ fst (loadConfig demoUrlOk (Some (str "db")) (Return tt)
            (fun _ _ _ => Return (Some [saraianRow; badEndpointRow])) emptyStore)
     = Throw (mkError (str "Configuration loading failed: Sheet configuration 1 has invalid webhook URL: not a url"))
  /\ Forall completeRow [saraianRow; blankNameRow; kelticRow]
  /\ fst (loadConfig (fun _ => true) (Some (str "db")) (Return tt)
            (fun _ _ _ => Return (Some [saraianRow; blankNameRow; kelticRow]))
            emptyStore)
     = Throw (mkError (str "Configuration loading failed: Sheet configuration 1 is missing required field: name")).
Proof.
  split; [|split; [|split]].
  - repeat constructor; try (eexists; vm_compute; reflexivity).
  - vm_compute. reflexivity.
  - repeat constructor; try (eexists; vm_compute; reflexivity).
  - vm_compute. reflexivity.
Qed.

(** C3, as the code has it. When at least one row is fully valid and the
    name and the endpoint of every fully valid row are more than white
    space, the endpoint without its outer white space parsing as a URL,
    then whatever rows with a missing cell or an unparsable URL stand
    between the valid ones, [loadConfig] throws nothing and returns the
    records of the fully valid rows and no other, in the order of the
    rows. *)
Theorem loadConfig_keeps_valid_rows (urlParses : jsstring -> bool) (env : value)
    (init : result unit)
    (getRange : jsstring -> jsstring -> jsstring -> result (option (list Row)))
    (rows : list Row) (st : store) :
  truthy env = true -> init = Return tt ->
  getRange (toString env) (str "A3:M") (str "Commander Database") = Return (Some rows) ->
  Exists fullyValid rows ->
  Forall (fun row => fullyValid row -> keptRowPasses urlParses row) rows ->
  exists config,
    fst (loadConfig urlParses env init getRange st) = Return config
    /\ Forall2 recordOf (filter fullyValid rows) config.
Proof.
  intros Henv Hinit Hrows Hex Hk.
  pose proof (flat_map_rowRecords_cons rows Hex) as Hrec.
  pose proof (kept_rows_pass urlParses rows Hk) as Hpass.
  destruct rows as [|row rows']; [inversion Hex|].
  rewrite (loadConfig_returns urlParses env init getRange st row rows'
             Henv Hinit Hrows Hrec).
  rewrite (proj2 (validation_accepts urlParses _) (conj Hrec Hpass)).
  exists (flat_map rowRecords (row :: rows')). split; [reflexivity|].
  apply scanned_records.
Qed.

Lemma loadConfig_keeps_valid_rows_witness :
  Exists fullyValid (malformedRow :: demoRows ++ [shortRow])
  /\ fst (loadConfig demoUrlOk (Some (str "db")) (Return tt)
            (fun _ _ _ => Return (Some (malformedRow :: demoRows ++ [shortRow])))
            emptyStore)
     = Return demoConfig.
Proof.
  assert (H : Exists fullyValid (malformedRow :: demoRows ++ [shortRow])).
  { apply Exists_cons_tl, Exists_cons_hd, fullyValidb_spec. vm_compute. reflexivity. }
  split; [exact H|].
  destruct (loadConfig_keeps_valid_rows demoUrlOk (Some (str "db")) (Return tt)
              (fun _ _ _ => Return (Some (malformedRow :: demoRows ++ [shortRow])))
              (malformedRow :: demoRows ++ [shortRow]) emptyStore
              eq_refl eq_refl eq_refl H)
    as (config & E & _).
  - repeat constructor; intros V;
      first [ eexists _, _; repeat split; vm_compute; discriminate
            | apply fullyValidb_spec in V; vm_compute in V; discriminate V ].
  - rewrite E. vm_compute in E. now injection E as <-.
Defined.

(** The statement of C3 fails once the array has to be returned: a fully
    valid row among skipped ones does not keep the run from a fatal error.
    With an endpoint that is no URL in a fully valid row the validator
    rejects the array, by design, and [loadConfig] throws; it also throws
    on a fully valid row whose name is white space only. *)
Lemma valid_rows_can_fail_validation :
  Exists fullyValid [shortRow; saraianRow; malformedRow; badEndpointRow]
  /\ fst (loadConfig demoUrlOk (Some (str "db")) (Return tt)
            (fun _ _ _ =>
               Return (Some [shortRow; saraianRow; malformedRow; badEndpointRow]))
            emptyStore)
     = Throw (mkError (str "Configuration loading failed: Sheet configuration 1 has invalid webhook URL: not a url"))
  /\ Exists fullyValid [kelticRow; shortRow; blankNameRow]
  /\ fst (loadConfig (fun _ => true) (Some (str "db")) (Return tt)
            (fun _ _ _ => Return (Some [kelticRow; shortRow; blankNameRow]))
            emptyStore)
     = Throw (mkError (str "Configuration loading failed: Sheet configuration 1 is missing required field: name")).
Proof.
  split; [|split; [|split]].
  - apply Exists_cons_tl, Exists_cons_hd, fullyValidb_spec. vm_compute. reflexivity.
  - vm_compute. reflexivity.
  - apply Exists_cons_hd, fullyValidb_spec. vm_compute. reflexivity.
  - vm_compute. reflexivity.
Qed.

(** ** Which rows are skipped *)

Lemma extractable_containsPattern u : extractable (Some u) <-> containsPattern u.
Proof.
  unfold extractable. rewrite parseSheetIdFromUrl_firstId. split.
  - intros [id H]. destruct (firstId u) as [id'|] eqn:E; [|discriminate].
    apply firstId_Some in E as (pre & c & rest & -> & Hc & _).
    exists pre, c, rest. split; [reflexivity | now apply idClass_spec].
  - intros Hc. destruct (firstId u) as [id|] eqn:E; [eauto|].
    now apply firstId_None in E.
Qed.

Lemma not_fullyValid_cases row :
  ~ fullyValid row <->
  (truthy (row !! 0%nat) = false \/ truthy (row !! 2%nat) = false
   \/ truthy (row !! 12%nat) = false)
  \/ (truthy (row !! 0%nat) = true /\ truthy (row !! 2%nat) = true
      /\ truthy (row !! 12%nat) = true
      /\ exists e, parseSheetIdFromUrl (row !! 2%nat) = Throw e).
Proof.
  unfold fullyValid. split.
  - intros H.
    destruct (truthy (row !! 0%nat)); [|tauto].
    destruct (truthy (row !! 2%nat)); [|tauto].
    destruct (truthy (row !! 12%nat)); [|tauto].
    destruct (parseSheetIdFromUrl (row !! 2%nat)) as [id|e]; [|right; eauto 6].
    exfalso. apply H. eauto 6.
  - intros [[H|[H|H]]|(_ & _ & _ & e & He)] (V0 & V2 & V12 & id & Vp); congruence.
Qed.

(** X16. A row is skipped exactly when it is not fully valid, that is when
    one of its three cells is empty or absent or its URL cell holds no
    [/spreadsheets/d/] followed by an identifier. The loop body then
    throws nothing, adds no record and logs one entry, a debug note when a
    cell is missing and a warning when the URL cannot be parsed, and when
    there are other rows [loadConfig] ends on the rows with such a row
    among them as it does on the other rows alone. A fully valid row adds
    one record. *)
Theorem row_is_skipped_iff_not_fully_valid (row : Row) :
  (~ fullyValid row <->
   missing (row !! 0%nat) \/ missing (row !! 2%nat) \/ missing (row !! 12%nat)
   \/ exists u, row !! 2%nat = Some u /\ ~ containsPattern u)
  /\ (~ fullyValid row ->
      (forall i st,
         exists entry,
           scanRow row i st = (Return tt, mkStore (elements st) (logged st ++ [entry]))
           /\ lvl entry
              = if truthy (row !! 0%nat) && truthy (row !! 2%nat)
                   && truthy (row !! 12%nat)
                then WARN else DEBUG)
      /\ (forall urlParses env init before after st st',
            before ++ after <> [] ->
            fst (loadConfig urlParses env init
                   (fun _ _ _ => Return (Some (before ++ row :: after))) st)
            = fst (loadConfig urlParses env init
                     (fun _ _ _ => Return (Some (before ++ after))) st')))
  /\ (fullyValid row ->
      forall i st,
        fst (scanRow row i st) = Return tt
        /\ length (elements (snd (scanRow row i st))) = S (length (elements st))).
Proof.
  split; [|split].
  - rewrite !missing_truthy. split.
    + intros H. apply not_fullyValid_cases in H as [H|(_ & H2 & _ & e & He)]; [tauto|].
      right; right; right. apply truthy_Some in H2 as (c & u & Eu).
      exists (c :: u). split; [exact Eu|]. intros Hc.
      apply extractable_containsPattern in Hc as [id Hid].
      rewrite Eu in He.
      assert (X : @Return jsstring id = Throw e)
        by (etransitivity; [symmetry; exact Hid | exact He]).
      discriminate X.
    + intros H (V0 & V2 & V12 & Vx).
      destruct H as [H|[H|[H|(u & Eu & Hu)]]]; try congruence.
      apply Hu, extractable_containsPattern. now rewrite <- Eu.
  - intros H. pose proof (proj1 (not_fullyValid_cases row) H) as Hcases. split.
    + intros i st. destruct Hcases as [Hm|(H0 & H2 & H12 & e & Hp)].
      * eexists. rewrite scanRow_missing by exact Hm. split; [reflexivity|].
        destruct Hm as [-> | [-> | ->]]; cbn [lvl andb]; rewrite ?andb_false_r;
          reflexivity.
      * eexists. rewrite (scanRow_malformed row i st e) by assumption.
        split; [reflexivity|]. now rewrite H0, H2, H12.
    + intros urlParses env init before after st st' Hne.
      rewrite !loadConfig_outcome.
      rewrite (tryOutcome_same_records urlParses env init
                 (before ++ row :: after) (before ++ after));
        [reflexivity | now destruct before | exact Hne |].
      rewrite !flat_map_app. cbn [flat_map].
      now rewrite (rowRecords_invalid row H).
  - intros (H0 & H2 & H12 & id & Hp) i st.
    rewrite (scanRow_valid row i st id H0 H2 H12 Hp). cbn [fst snd elements].
    split; [reflexivity|]. rewrite length_app. cbn [length]. lia.
Qed.

Lemma row_is_skipped_iff_not_fully_valid_witness :
  ~ fullyValid malformedRow
  /\ (forall i st,
        exists entry,
          scanRow malformedRow i st
          = (Return tt, mkStore (elements st) (logged st ++ [entry]))
          /\ lvl entry = WARN).
Proof.
  assert (H : ~ fullyValid malformedRow).
  { intros V. apply fullyValidb_spec in V. vm_compute in V. discriminate V. }
  split; [exact H|].
  apply (proj1 (proj1 (proj2 (row_is_skipped_iff_not_fully_valid malformedRow)) H)).
Defined.
